(** * Gemini proxy: the Firebase functions and the Express server

    A shallow embedding of

    - [index.js]: the callable function [generateWithGemini], the HTTP
      function [generateWithGeminiHttp] and the scheduled [cleanupLogs];
    - the Express server: the handlers of [GET /health] and
      [POST /generate] as the functions that the source defines, the
      [express-rate-limit] middleware as it is configured, and the
      top-level statements of the module in the order in which loading
      runs them.

    Conventions of the model.

    - A JavaScript string is the list of its UTF-16 code units, so that
      [length] is the [.length] of the source and [trim] removes what
      [String.prototype.trim] removes.
    - Firestore is a pair of finite maps (collections [rateLimits] and
      [usage_logs]) keyed by document id.  Store operations are reliable:
      [get], [set], [add] and [commit] do not throw, and the id chosen by
      [add] is supplied by the environment.
    - Everything a handler obtains from outside (the clock, the answer of
      the Gemini service, the verdict of the identity provider) is a field
      of an environment record; a handler is a function of its request, the
      environment and the store.
    - Every awaited external operation is recorded in a trace, in the order
      in which the handler performs it.
    - [console.log] and [console.error] are not modelled. *)

From Stdlib Require Import ZArith NArith String Ascii.
From stdpp Require Import base option list gmap fin_maps sorting.

Local Open Scope Z_scope.

(** ** JavaScript strings *)

Module JsString.

(** A string is a sequence of UTF-16 code units. *)
Abbreviation t := (list N).

(** The code units of an ASCII literal. *)
Definition js (s : string) : t :=
  List.map N_of_ascii (list_ascii_of_string s).

(** [WhiteSpace] and [LineTerminator] of ECMAScript: the code units that
    [String.prototype.trim] strips. *)
Definition is_white_space (c : N) : bool :=
  ((c =? 0x0009) || (c =? 0x000A) || (c =? 0x000B) || (c =? 0x000C)
   || (c =? 0x000D) || (c =? 0x0020) || (c =? 0x00A0) || (c =? 0x1680)
   || ((0x2000 <=? c) && (c <=? 0x200A))
   || (c =? 0x2028) || (c =? 0x2029) || (c =? 0x202F) || (c =? 0x205F)
   || (c =? 0x3000) || (c =? 0xFEFF))%N.

Fixpoint trimStart (s : t) : t :=
  match s with
  | c :: s' => if is_white_space c then trimStart s' else s
  | [] => []
  end.

Definition trimEnd (s : t) : t := rev (trimStart (rev s)).

(** [s.trim()] *)
Definition trim (s : t) : t := trimEnd (trimStart s).

Fixpoint startsWith (s pat : t) : bool :=
  match pat, s with
  | [], _ => true
  | p :: pat', c :: s' => (c =? p)%N && startsWith s' pat'
  | _ :: _, [] => false
  end.

(** [s.includes(pat)] *)
Fixpoint includes (s pat : t) : bool :=
  startsWith s pat ||
  match s with
  | [] => false
  | _ :: s' => includes s' pat
  end.

(** [s.length] *)
Definition length (s : t) : Z := Z.of_nat (List.length s).

End JsString.

Abbreviation jsstring := (list N).
Abbreviation js := JsString.js.

(** ** JavaScript values and errors *)

(** The values a JSON payload field can hold.  A number is kept as an
    integer: the handlers only test a field for truthiness and for being a
    string. *)
Inductive JsValue :=
| JsUndefined
| JsNull
| JsBool (b : bool)
| JsNumber (n : Z)
| JsString (s : jsstring)
| JsObject.

(** [ToBoolean]: what [!v] negates. *)
Definition to_boolean (v : JsValue) : bool :=
  match v with
  | JsUndefined | JsNull => false
  | JsBool b => b
  | JsNumber n => negb (n =? 0)
  | JsString s => negb (JsString.length s =? 0)
  | JsObject => true
  end.

(** The condition
    [!v || typeof v !== 'string' || v.trim().length === 0]
    shared by every handler: [None] when it holds, the string otherwise.
    The [typeof] test is the match on [JsString]. *)
Definition non_blank_string (v : JsValue) : option jsstring :=
  if negb (to_boolean v) then None
  else match v with
       | JsString s =>
           if JsString.length (JsString.trim s) =? 0 then None else Some s
       | _ => None
       end.

(** The codes of [functions.https.HttpsError] that the functions use. *)
Inductive FunctionsErrorCode :=
| unauthenticated
| invalid_argument
| resource_exhausted
| internal.

(** A thrown value: an [HttpsError] raised by a handler, or any other
    [Error], whose [message] may be missing. *)
Inductive JsError :=
| HttpsError (code : FunctionsErrorCode) (message : jsstring)
| Error (message : option jsstring).

Definition error_message (e : JsError) : option jsstring :=
  match e with
  | HttpsError _ m => Some m
  | Error m => m
  end.

(** [error.message?.includes(pat)], as a condition. *)
Definition message_includes (e : JsError) (pat : jsstring) : bool :=
  match error_message e with
  | Some m => JsString.includes m pat
  | None => false
  end.

(** [error instanceof functions.https.HttpsError] *)
Definition is_HttpsError (e : JsError) : bool :=
  match e with
  | HttpsError _ _ => true
  | Error _ => false
  end.

(** The instant held by a [Date], in milliseconds since the epoch, as
    rendered by [toISOString]. *)
Inductive IsoString := toISOString (ms : Z).

(** ** Firestore *)

(** A document of the collection [rateLimits], keyed by user id. *)
Record RateLimit := { count : Z; lastReset : Z }.

(** A document of the collection [usage_logs]. *)
Module UsageLog.
Record t := {
  userId : jsstring;
  timestamp : Z;
  promptLength : Z;
  responseLength : Z;
  model : jsstring
}.
End UsageLog.

Record Firestore := {
  rateLimits : gmap jsstring RateLimit;
  usage_logs : gmap jsstring UsageLog.t
}.

(** ** The outside world *)

(** A handle returned by [getGenerativeModel]: the key the client was built
    with, the model name, and whether the fixed [generationConfig]
    (temperature 0.7, topP 0.8, topK 40, maxOutputTokens 2048) was given. *)
Record GenerativeModel := {
  clientKey : jsstring;
  modelName : jsstring;
  withGenerationConfig : bool
}.

(** What [generateContent], [result.response] and [response.text()] yield
    together: the text, or a thrown error. *)
Inductive Upstream :=
| Text (text : jsstring)
| Throws (message : option jsstring).

Record Env := {
  (** [Date.now()] *)
  date_now : Z;
  (** the instant of [new Date()] *)
  date_new : Z;
  (** [FieldValue.serverTimestamp()], as resolved by the store *)
  serverTimestamp : Z;
  (** the document id picked by [add] *)
  autoId : jsstring;
  (** [functions.config().gemini.api_key] *)
  gemini_api_key : jsstring;
  (** the Gemini service *)
  gemini : GenerativeModel -> jsstring -> Upstream;
  (** [admin.auth().verifyIdToken]: does the token verify? *)
  idTokenValid : JsValue -> bool;
  (** [process.env.NODE_ENV] *)
  NODE_ENV : option jsstring
}.

(** The awaited operations, as they appear in a trace. *)
Inductive Event :=
| EvRateLimitGet (uid : jsstring)
| EvRateLimitSet (uid : jsstring) (doc : RateLimit)
| EvGenerateContent (m : GenerativeModel) (prompt : jsstring)
| EvUsageLogAdd (id : jsstring) (entry : UsageLog.t)
| EvVerifyIdToken (idToken : JsValue)
| EvUsageLogQuery (cutoff : Z) (limit : nat)
| EvBatchCommit (deleted : list jsstring).

Record World := { store : Firestore; trace : list Event }.

(** ** Handlers as computations

    A computation runs in a world and either returns or throws; the world
    it leaves behind is kept in both cases, as effects are not undone by an
    exception.  The store is one that is available: [get], [set], [add] and
    [commit] return.  What a handler does when the store rejects an
    operation is not part of the model. *)

Inductive Completion (A : Type) :=
| Returns (a : A)
| Thrown (e : JsError).
Arguments Returns {A} a.
Arguments Thrown {A} e.

Definition Async (A : Type) : Type := World -> Completion A * World.

Definition ret {A} (a : A) : Async A := fun w => (Returns a, w).

Definition throw {A} (e : JsError) : Async A := fun w => (Thrown e, w).

Definition bind {A B} (m : Async A) (k : A -> Async B) : Async B :=
  fun w =>
    match m w with
    | (Returns a, w') => k a w'
    | (Thrown e, w') => (Thrown e, w')
    end.

(** [try { m } catch (error) { h error }] *)
Definition try_catch {A} (m : Async A) (h : JsError -> Async A) : Async A :=
  fun w =>
    match m w with
    | (Returns a, w') => (Returns a, w')
    | (Thrown e, w') => h e w'
    end.

Notation "'await' x := m 'in' k" := (bind m (fun x => k))
  (at level 10, x name, m at level 100, k at level 200).
Notation "'perform' m 'before' k" := (bind m (fun _ => k))
  (at level 10, m at level 100, k at level 200).

Definition emit (e : Event) : Async unit :=
  fun w => (Returns tt, {| store := store w; trace := trace w ++ [e] |}).

Definition get_store : Async Firestore := fun w => (Returns (store w), w).

Definition put_store (s : Firestore) : Async unit :=
  fun w => (Returns tt, {| store := s; trace := trace w |}).

(** [admin.firestore().collection('rateLimits').doc(uid).get()]: [None]
    when the snapshot has [exists = false]. *)
Definition rateLimit_get (uid : jsstring) : Async (option RateLimit) :=
  perform emit (EvRateLimitGet uid) before
  await s := get_store in
  ret (rateLimits s !! uid).

(** [rateLimitRef.set(doc)] *)
Definition rateLimit_set (uid : jsstring) (doc : RateLimit) : Async unit :=
  perform emit (EvRateLimitSet uid doc) before
  await s := get_store in
  put_store {| rateLimits := <[uid := doc]> (rateLimits s);
               usage_logs := usage_logs s |}.

(** [admin.firestore().collection('usage_logs').add(entry)] *)
Definition usage_logs_add (id : jsstring) (entry : UsageLog.t) : Async unit :=
  perform emit (EvUsageLogAdd id entry) before
  await s := get_store in
  put_store {| rateLimits := rateLimits s;
               usage_logs := <[id := entry]> (usage_logs s) |}.

(** [model.generateContent(prompt)] followed by [response.text()] *)
Definition generateContent (env : Env) (m : GenerativeModel)
    (prompt : jsstring) : Async jsstring :=
  perform emit (EvGenerateContent m prompt) before
  match gemini env m prompt with
  | Text text => ret text
  | Throws message => throw (Error message)
  end.

(** Running a handler on a store, with an empty trace. *)
Definition run {A} (m : Async A) (s : Firestore) : Completion A * World :=
  m {| store := s; trace := [] |}.

(** ** Requests and responses *)

(** The JSON object received: [data] of the callable function, [req.body]
    of the HTTP handlers.  A missing field reads as [JsUndefined], and so
    does every field of a value that is not an object.  A payload that is
    [null], on which the destructuring throws, is not a [Payload]:
    [generateWithGemini_onCall] below takes it in. *)
Record Payload := {
  prompt : JsValue;
  idToken : JsValue;
  apiKey : JsValue
}.

Record AuthData := { uid : jsstring }.

(** [context] of a callable function; [auth] is absent when the caller is
    not signed in. *)
Record CallableContext := { auth : option AuthData }.

(** [{ response, timestamp }] *)
Record GenerationResult := {
  response : jsstring;
  timestamp : IsoString
}.

Inductive Body :=
| Send (text : jsstring)
| JsonError (error : jsstring) (message : option jsstring)
| JsonGenerated (result : GenerationResult)
| JsonHealth (status : jsstring) (timestamp : IsoString) (service : jsstring).

(** An HTTP response; the CORS and security headers are left out. *)
Record Response := { status : Z; body : Body }.

Inductive Method := GET | POST | OPTIONS | OtherMethod.

(** ** index.js: [generateWithGemini] *)

Definition oneHour : Z := 60 * 60 * 1000.

(** The body of the [try] block, lines 20 to 105. *)
Definition generateWithGemini_try (env : Env) (data : Payload)
    (context : CallableContext) : Async GenerationResult :=
  match auth context with
  | None =>
      throw (HttpsError unauthenticated
               (js "The function must be called while authenticated."))
  | Some caller =>
      match non_blank_string (prompt data) with
      | None =>
          throw (HttpsError invalid_argument
                   (js "Prompt is required and must be a non-empty string."))
      | Some prompt =>
          if 8000 <? JsString.length prompt then
            throw (HttpsError invalid_argument
                     (js "Prompt is too long. Maximum 8000 characters allowed."))
          else
            let userId := uid caller in
            await rateLimitDoc := rateLimit_get userId in
            let now := date_now env in
            perform
              match rateLimitDoc with
              | Some data =>
                  if (now - lastReset data <? oneHour) && (20 <=? count data)
                  then throw (HttpsError resource_exhausted
                                (js "Rate limit exceeded. Try again later."))
                  else ret tt
              | None => ret tt
              end
            before
            let model := {| clientKey := gemini_api_key env;
                            modelName := js "gemini-pro";
                            withGenerationConfig := true |} in
            await text := generateContent env model prompt in
            let currentCount :=
              match rateLimitDoc with
              | Some data =>
                  if now - lastReset data <? oneHour then count data + 1 else 1
              | None => 1
              end in
            perform
              rateLimit_set userId
                {| count := currentCount;
                   lastReset :=
                     match rateLimitDoc with
                     | Some data =>
                         if now - lastReset data <? oneHour
                         then lastReset data else now
                     | None => now
                     end |}
            before
            perform
              usage_logs_add (autoId env)
                {| UsageLog.userId := userId;
                   UsageLog.timestamp := serverTimestamp env;
                   UsageLog.promptLength := JsString.length prompt;
                   UsageLog.responseLength := JsString.length text;
                   UsageLog.model := js "gemini-pro" |}
            before
            ret {| response := text;
                   timestamp := toISOString (date_new env) |}
      end
  end.

(** The [catch] block, lines 107 to 142. *)
Definition generateWithGemini_catch {A} (error : JsError) : Async A :=
  if message_includes error (js "API_KEY_INVALID") then
    throw (HttpsError internal (js "AI service configuration error."))
  else if message_includes error (js "QUOTA_EXCEEDED") then
    throw (HttpsError resource_exhausted
             (js "AI service quota exceeded. Please try again later."))
  else if message_includes error (js "SAFETY") then
    throw (HttpsError invalid_argument
             (js "Content was blocked due to safety policies."))
  else if is_HttpsError error then
    throw error
  else
    throw (HttpsError internal (js "Failed to generate content.")).

Definition generateWithGemini (env : Env) (data : Payload)
    (context : CallableContext) : Async GenerationResult :=
  try_catch (generateWithGemini_try env data context)
            generateWithGemini_catch.

(** The [TypeError] that [const { prompt } = data] (line 29) throws when
    [data] is [null]. *)
Definition destructuring_error : JsError :=
  Error (Some (js "Cannot destructure property 'prompt' of 'data' as it is null.")).

(** [generateWithGemini] on whatever the client sent: [None] stands for
    [null], the [data] of a call without argument.  The check of
    [context.auth] comes before the destructuring, and both are inside the
    [try] block. *)
Definition generateWithGemini_onCall (env : Env) (data : option Payload)
    (context : CallableContext) : Async GenerationResult :=
  match data with
  | Some data => generateWithGemini env data context
  | None =>
      try_catch
        (match auth context with
         | None =>
             throw (HttpsError unauthenticated
                      (js "The function must be called while authenticated."))
         | Some caller => throw destructuring_error
         end)
        generateWithGemini_catch
  end.

(** ** index.js: [generateWithGeminiHttp] *)

Definition generateWithGeminiHttp (env : Env) (method : Method)
    (body : Payload) : Async Response :=
  match method with
  | OPTIONS => ret {| status := 204; body := Send (js "") |}
  | POST =>
      try_catch
        (perform emit (EvVerifyIdToken (idToken body)) before
         if negb (idTokenValid env (idToken body)) then
           ret {| status := 401;
                  body := JsonError (js "Unauthorized") None |}
         else
           match non_blank_string (prompt body) with
           | None =>
               ret {| status := 400;
                      body := JsonError (js "Invalid prompt") None |}
           | Some prompt =>
               let model := {| clientKey := gemini_api_key env;
                               modelName := js "gemini-pro";
                               withGenerationConfig := false |} in
               await text := generateContent env model prompt in
               ret {| status := 200;
                      body := JsonGenerated
                                {| response := text;
                                   timestamp := toISOString (date_new env) |} |}
           end)
        (fun error =>
           ret {| status := 500;
                  body := JsonError (js "Internal server error") None |})
  | GET | OtherMethod =>
      ret {| status := 405; body := JsonError (js "Method not allowed") None |}
  end.

(** ** The Express server *)


(** The [catch] block of [POST /generate], lines 96 to 127. *)
Definition generate_catch (env : Env) (error : JsError) : Async Response :=
  if message_includes error (js "API_KEY_INVALID")
     || message_includes error (js "invalid API key") then
    ret {| status := 401;
           body := JsonError (js "Invalid API key provided") None |}
  else if message_includes error (js "quota")
          || message_includes error (js "QUOTA_EXCEEDED") then
    ret {| status := 429; body := JsonError (js "API quota exceeded") None |}
  else if message_includes error (js "SAFETY") then
    ret {| status := 400;
           body := JsonError (js "Content was blocked due to safety concerns")
                             None |}
  else
    ret {| status := 500;
           body := JsonError (js "Failed to generate content")
                     (if bool_decide (NODE_ENV env = Some (js "development"))
                      then error_message error
                      else Some (js "Internal server error")) |}.

(** [POST /generate], lines 46 to 128. *)
Definition generate (env : Env) (body : Payload) : Async Response :=
  try_catch
    (match non_blank_string (apiKey body) with
     | None =>
         ret {| status := 400;
                body := JsonError
                  (js "API key is required and must be a non-empty string")
                  None |}
     | Some apiKey =>
         match non_blank_string (prompt body) with
         | None =>
             ret {| status := 400;
                    body := JsonError
                      (js "Prompt is required and must be a non-empty string")
                      None |}
         | Some prompt =>
             let model := {| clientKey := apiKey;
                             modelName := js "gemini-pro";
                             withGenerationConfig := true |} in
             await text := generateContent env model prompt in
             if negb (to_boolean (JsString text))
                || (JsString.length (JsString.trim text) =? 0) then
               ret {| status := 500;
                      body := JsonError (js "No content was generated") None |}
             else
               ret {| status := 200;
                      body := JsonGenerated
                                {| response := text;
                                   timestamp := toISOString (date_new env) |} |}
         end
     end)
    (generate_catch env).

(** The [express-rate-limit] middleware, lines 21 to 26: a counter per
    client address that starts afresh when its window has run out.  A
    middleware either answers the request or hands it on ([None]). *)
Record LimiterOptions := {
  windowMs : Z;
  max : Z;
  message : jsstring
}.

Definition limiterOptions : LimiterOptions :=
  {| windowMs := 15 * 60 * 1000;
     max := 100;
     message := js "Too many requests from this IP, please try again later." |}.

Record ClientHits := { totalHits : Z; resetTime : Z }.

Definition increment (opts : LimiterOptions) (now : Z) (ip : jsstring)
    (hits : gmap jsstring ClientHits) : ClientHits :=
  match hits !! ip with
  | Some h =>
      if now <? resetTime h
      then {| totalHits := totalHits h + 1; resetTime := resetTime h |}
      else {| totalHits := 1; resetTime := now + windowMs opts |}
  | None => {| totalHits := 1; resetTime := now + windowMs opts |}
  end.

Definition Middleware (S : Type) : Type :=
  Z -> jsstring -> S -> S * option Response.

Definition rateLimit (opts : LimiterOptions)
  : Middleware (gmap jsstring ClientHits) :=
  fun now ip hits =>
    let h := increment opts now ip hits in
    (<[ip := h]> hits,
     if max opts <? totalHits h
     then Some {| status := 429; body := Send (message opts) |}
     else None).

(** ** index.js: [cleanupLogs] *)

Definition msPerDay : Z := 24 * 60 * 60 * 1000.

(** [thirtyDaysAgo.setDate(thirtyDaysAgo.getDate() - 30)] on [new Date()]:
    the same time of day thirty calendar days earlier, which in a zone
    whose offset does not change is thirty times [msPerDay] earlier. *)
Definition thirtyDaysAgo (env : Env) : Z := date_new env - 30 * msPerDay.

(** The order of document ids. *)
Fixpoint id_leb (a b : jsstring) : bool :=
  match a, b with
  | [], _ => true
  | _ :: _, [] => false
  | x :: a', y :: b' => (x <? y)%N || ((x =? y)%N && id_leb a' b')
  end.

(** The order in which a query with an inequality on [timestamp] returns
    documents: by [timestamp], then by id. *)
Definition log_leb (a b : jsstring * UsageLog.t) : bool :=
  (UsageLog.timestamp a.2 <? UsageLog.timestamp b.2)
  || ((UsageLog.timestamp a.2 =? UsageLog.timestamp b.2)
      && id_leb a.1 b.1).

Definition log_le (a b : jsstring * UsageLog.t) : Prop :=
  Is_true (log_leb a b).

#[global] Instance log_le_dec a b : Decision (log_le a b).
Proof. unfold log_le. apply _. Defined.

(** The documents that a query [where('timestamp', '<', cutoff).limit(n)]
    finds in a collection: the first [n], in the order of the query, of
    those that satisfy the filter. *)
Definition where_timestamp_lt (cutoff : Z) (n : nat)
    (logs : gmap jsstring UsageLog.t) : list (jsstring * UsageLog.t) :=
  take n
    (merge_sort log_le
       (filter (fun d => UsageLog.timestamp d.2 < cutoff) (map_to_list logs))).

(** [collection('usage_logs').where('timestamp', '<', cutoff).limit(n).get()] *)
Definition usage_logs_where_lt (cutoff : Z) (n : nat)
  : Async (list (jsstring * UsageLog.t)) :=
  perform emit (EvUsageLogQuery cutoff n) before
  await s := get_store in
  ret (where_timestamp_lt cutoff n (usage_logs s)).

(** [batch.delete(ref)] for each id, then [batch.commit()] *)
Definition batch_commit (ids : list jsstring) : Async unit :=
  perform emit (EvBatchCommit ids) before
  await s := get_store in
  put_store {| rateLimits := rateLimits s;
               usage_logs := foldr delete (usage_logs s) ids |}.

Definition cleanupLogs (env : Env) : Async unit :=
  let thirtyDaysAgo := thirtyDaysAgo env in
  await oldLogs := usage_logs_where_lt thirtyDaysAgo 500 in
  batch_commit (oldLogs.*1).

(** ** The Express module as it is loaded

    The top-level statements of the server module run once, in order, when
    the module is loaded.  A statement first evaluates the identifiers that
    it mentions outside of function bodies; an identifier that nothing has
    bound throws a [ReferenceError], which ends the loading there.  The
    calls into the libraries ([require], [express()], [helmet()],
    [genkit(...)] and the like) are taken to return. *)

(** What [app.use], [app.get] and [app.post] register, in order. *)
Inductive Layer :=
| UseHelmet
| UseCors
| UseLimiter
| UseJson
| RouteGetHealth
| RoutePostGenerate
| RoutePostGenerateFlow
| UseErrorHandler
| UseNotFound.

(** The Express application: what is registered on it, and whether
    [app.listen] has been called. *)
Record ServerApp := { stack : list Layer; listening : bool }.

Record ModuleState := { bound : list string; application : ServerApp }.

Definition Loading (A : Type) : Type := ModuleState -> Completion A * ModuleState.

Definition is_bound (x : string) (m : ModuleState) : bool :=
  existsb (String.eqb x) (bound m).

Definition ReferenceError (x : string) : JsError :=
  Error (Some (js (x ++ " is not defined"))).

(** The identifiers of a statement are looked up from left to right. *)
Fixpoint evaluate (reads : list string) : Loading unit :=
  fun m =>
    match reads with
    | [] => (Returns tt, m)
    | x :: reads' =>
        if is_bound x m then evaluate reads' m
        else (Thrown (ReferenceError x), m)
    end.

(** [const x = e], where [e] mentions [reads]. *)
Definition const_ (x : string) (reads : list string) : Loading unit :=
  fun m =>
    match evaluate reads m with
    | (Returns _, m') =>
        (Returns tt,
         {| bound := bound m' ++ [x]; application := application m' |})
    | (Thrown e, m') => (Thrown e, m')
    end.

(** An expression statement that mentions [reads] and acts on the
    application. *)
Definition call_ (reads : list string) (effect : ServerApp -> ServerApp)
  : Loading unit :=
  fun m =>
    match evaluate reads m with
    | (Returns _, m') =>
        (Returns tt,
         {| bound := bound m'; application := effect (application m') |})
    | (Thrown e, m') => (Thrown e, m')
    end.

Definition register (l : Layer) (a : ServerApp) : ServerApp :=
  {| stack := stack a ++ [l]; listening := listening a |}.

Definition listen (a : ServerApp) : ServerApp :=
  {| stack := stack a; listening := true |}.

Fixpoint statements (l : list (Loading unit)) : Loading unit :=
  fun m =>
    match l with
    | [] => (Returns tt, m)
    | st :: l' =>
        match st m with
        | (Returns _, m') => statements l' m'
        | (Thrown e, m') => (Thrown e, m')
        end
    end.

(** The module, statement by statement.  [z] is mentioned by the
    definition of [geminiFlow] (lines 131 to 148, in [z.object] at line
    134), and no statement binds it. *)
Definition server_module : Loading unit :=
  statements
    [ (* 1 *) const_ "express" ["require"%string];
      (* 2 *) const_ "GoogleGenerativeAI" ["require"%string];
      (* 3 *) const_ "genkit" ["require"%string];
      (* 4 *) const_ "googleAI" ["require"%string];
      (* 5 *) const_ "cors" ["require"%string];
      (* 6 *) const_ "helmet" ["require"%string];
      (* 7 *) const_ "rateLimit" ["require"%string];
      (* 9 *) const_ "app" ["express"%string];
      (* 10 *) const_ "PORT" ["process"%string];
      (* 13 *) call_ ["app"; "helmet"]%string (register UseHelmet);
      (* 14 *) call_ ["app"; "cors"; "process"]%string (register UseCors);
      (* 21 *) const_ "limiter" ["rateLimit"%string];
      (* 26 *) call_ ["app"; "limiter"]%string (register UseLimiter);
      (* 29 *) call_ ["app"; "express"]%string (register UseJson);
      (* 32 *) const_ "ai" ["genkit"; "googleAI"]%string;
      (* 37 *) call_ ["app"%string] (register RouteGetHealth);
      (* 46 *) call_ ["app"%string] (register RoutePostGenerate);
      (* 131 *) const_ "geminiFlow" ["ai"; "z"]%string;
      (* 151 *) call_ ["app"%string] (register RoutePostGenerateFlow);
      (* 177 *) call_ ["app"%string] (register UseErrorHandler);
      (* 185 *) call_ ["app"%string] (register UseNotFound);
      (* 192 *) call_ ["app"; "PORT"]%string listen;
      (* 200 *) call_ ["process"%string] id;
      (* 205 *) call_ ["process"%string] id;
      (* 210 *) call_ ["module"; "app"]%string id ].

(** What Node binds before the first statement of a module runs. *)
Definition node_scope : ModuleState :=
  {| bound := ["require"; "module"; "exports"; "process"; "console"]%string;
     application := {| stack := []; listening := false |} |}.

(** What a client of the server process gets for a request: nothing unless
    the module has loaded and the application listens (an exception that
    escapes the module ends the process), and otherwise the answer that the
    application gives. *)
Definition client_gets {A} (loaded : Completion unit * ModuleState)
    (answer : A) : option A :=
  match loaded.1 with
  | Returns _ => if listening (application loaded.2) then Some answer else None
  | Thrown _ => None
  end.

(** The answers of the limiter to the requests that one client sends at
    the given times. *)
Fixpoint limiter_answers (opts : LimiterOptions) (ip : jsstring)
    (times : list Z) (hits : gmap jsstring ClientHits)
  : list (option Response) :=
  match times with
  | [] => []
  | now :: times' =>
      let r := rateLimit opts now ip hits in
      r.2 :: limiter_answers opts ip times' r.1
  end.

(** ** Vocabulary of the statements *)

(** The errors raised inside the [try] block of [generateWithGemini]. *)
Definition unauthenticated_error : JsError :=
  HttpsError unauthenticated
    (js "The function must be called while authenticated.").

Definition prompt_required_error : JsError :=
  HttpsError invalid_argument
    (js "Prompt is required and must be a non-empty string.").

Definition prompt_too_long_error : JsError :=
  HttpsError invalid_argument
    (js "Prompt is too long. Maximum 8000 characters allowed.").

Definition rate_limit_error : JsError :=
  HttpsError resource_exhausted (js "Rate limit exceeded. Try again later.").

(** The model that [generateWithGemini] asks for. *)
Definition callable_model (env : Env) : GenerativeModel :=
  {| clientKey := gemini_api_key env;
     modelName := js "gemini-pro";
     withGenerationConfig := true |}.

(** The window opened at [lastReset doc] is still running at [now]. *)
Definition in_window (now : Z) (doc : RateLimit) : Prop :=
  now - lastReset doc < oneHour.

(** The record found makes the limiter refuse the request. *)
Definition over_limit (now : Z) (doc : option RateLimit) : Prop :=
  exists d, doc = Some d /\ in_window now d /\ 20 <= count d.

(** The code of a completion, when it is a thrown [HttpsError]. *)
Definition thrown_code {A} (c : Completion A) : option FunctionsErrorCode :=
  match c with
  | Thrown (HttpsError code _) => Some code
  | _ => None
  end.

(** The error kind that an HTTP status stands for. *)
Definition kind_of_status (status : Z) : option FunctionsErrorCode :=
  if status =? 400 then Some invalid_argument
  else if status =? 401 then Some unauthenticated
  else if status =? 429 then Some resource_exhausted
  else if status =? 500 then Some internal
  else None.

Definition is_generate_event (e : Event) : bool :=
  match e with
  | EvGenerateContent _ _ => true
  | _ => false
  end.

Definition is_rate_limit_write (e : Event) : bool :=
  match e with
  | EvRateLimitSet _ _ => true
  | _ => false
  end.

Definition is_log_write (e : Event) : bool :=
  match e with
  | EvUsageLogAdd _ _ => true
  | _ => false
  end.

(** The handler got as far as calling the Gemini service. *)
Definition contacts_upstream (t : list Event) : Prop :=
  existsb is_generate_event t = true.

(** The record written after a successful generation. *)
Definition next_rateLimit (now : Z) (doc : option RateLimit) : RateLimit :=
  match doc with
  | Some d =>
      if now - lastReset d <? oneHour
      then {| count := count d + 1; lastReset := lastReset d |}
      else {| count := 1; lastReset := now |}
  | None => {| count := 1; lastReset := now |}
  end.

(** The log entry added after a successful generation. *)
Definition usage_entry (env : Env) (u p text : jsstring) : UsageLog.t :=
  {| UsageLog.userId := u;
     UsageLog.timestamp := serverTimestamp env;
     UsageLog.promptLength := JsString.length p;
     UsageLog.responseLength := JsString.length text;
     UsageLog.model := js "gemini-pro" |}.

(** A call of [generateWithGemini]: what the function receives, and the
    environment it runs in. *)
Record Call := {
  call_env : Env;
  call_data : Payload;
  call_context : CallableContext
}.

Definition handle (c : Call) : Async GenerationResult :=
  generateWithGemini (call_env c) (call_data c) (call_context c).

(** Calls served one after another, each on the store that the one before
    left behind.  Every call has a completion and a trace of its own. *)
Fixpoint serve (calls : list Call) (s : Firestore)
  : list (Completion GenerationResult * list Event) * Firestore :=
  match calls with
  | [] => ([], s)
  | c :: calls' =>
      let r := run (handle c) s in
      let rest := serve calls' (store r.2) in
      ((r.1, trace r.2) :: rest.1, rest.2)
  end.

(** A call by [caller] whose prompt [generateWithGemini] lets through. *)
Definition valid_call (caller : AuthData) (c : Call) : Prop :=
  auth (call_context c) = Some caller /\
  exists p, non_blank_string (prompt (call_data c)) = Some p /\
            JsString.length p <= 8000.

(** The Gemini service answers the call with a text. *)
Definition upstream_answers (c : Call) : Prop :=
  exists p text,
    non_blank_string (prompt (call_data c)) = Some p /\
    gemini (call_env c) (callable_model (call_env c)) p = Text text.



(** The model that [POST /generate] asks for, with the key of the client. *)
Definition express_model (key : jsstring) : GenerativeModel :=
  {| clientKey := key;
     modelName := js "gemini-pro";
     withGenerationConfig := true |}.

(** [error.message?.includes(pat)] for the error thrown by the Gemini
    service with message [m]. *)
Definition mentions (m : option jsstring) (pat : string) : bool :=
  message_includes (Error m) (js pat).


(** How an entry point answers: it accepts the request, or rejects it with
    an error kind. *)
Inductive Verdict :=
| Accepted
| Rejected (kind : FunctionsErrorCode)
| Unclassified.

Definition callable_verdict (c : Completion GenerationResult) : Verdict :=
  match c with
  | Returns _ => Accepted
  | Thrown (HttpsError kind _) => Rejected kind
  | Thrown (Error _) => Unclassified
  end.

Definition http_verdict (c : Completion Response) : Verdict :=
  match c with
  | Returns res =>
      if status res =? 200 then Accepted
      else match kind_of_status (status res) with
           | Some kind => Rejected kind
           | None => Unclassified
           end
  | Thrown _ => Unclassified
  end.

(** The entry is older than thirty days when the sweep runs in [env]. *)
Definition older_than_30_days (env : Env) (e : UsageLog.t) : Prop :=
  UsageLog.timestamp e < date_new env - 30 * msPerDay.

(** A store without any entry for the sweep to delete. *)
Definition clean (env : Env) (s : Firestore) : Prop :=
  forall id e, usage_logs s !! id = Some e -> ~ older_than_30_days env e.

(** The model that [generateWithGeminiHttp] asks for. *)
Definition http_model (env : Env) : GenerativeModel :=
  {| clientKey := gemini_api_key env;
     modelName := js "gemini-pro";
     withGenerationConfig := false |}.

(** Every error that [generateWithGemini] can throw. *)
Definition callable_errors : list JsError :=
  [ unauthenticated_error;
    prompt_required_error;
    prompt_too_long_error;
    rate_limit_error;
    HttpsError internal (js "AI service configuration error.");
    HttpsError resource_exhausted
      (js "AI service quota exceeded. Please try again later.");
    HttpsError invalid_argument
      (js "Content was blocked due to safety policies.");
    HttpsError internal (js "Failed to generate content.") ].

(** The bodies with which [POST /generate] reports an error when the
    server does not run in development mode. *)
Definition generate_error_bodies : list Body :=
  [ JsonError (js "API key is required and must be a non-empty string") None;
    JsonError (js "Prompt is required and must be a non-empty string") None;
    JsonError (js "No content was generated") None;
    JsonError (js "Invalid API key provided") None;
    JsonError (js "API quota exceeded") None;
    JsonError (js "Content was blocked due to safety concerns") None;
    JsonError (js "Failed to generate content")
              (Some (js "Internal server error")) ].

Definition succeeded {A} (c : Completion A) : bool :=
  match c with
  | Returns _ => true
  | Thrown _ => false
  end.

(** The number of calls, among those served, that returned a result. *)
Definition successes
    (served : list (Completion GenerationResult * list Event)) : nat :=
  length (List.filter (fun r => succeeded r.1) served).

(** The log entries that the sweep run in [env] is to delete. *)
Definition old_logs (env : Env) (s : Firestore) : gmap jsstring UsageLog.t :=
  filter (fun d => UsageLog.timestamp d.2 < thirtyDaysAgo env) (usage_logs s).

(** The store after a run of [cleanupLogs]. *)
Definition sweep (env : Env) (s : Firestore) : Firestore :=
  store (run (cleanupLogs env) s).2.

(** A log entry as [generateWithGemini] writes them. *)
Definition well_formed_log (e : UsageLog.t) : Prop :=
  0 < UsageLog.promptLength e <= 8000
  /\ 0 <= UsageLog.responseLength e
  /\ UsageLog.model e = js "gemini-pro".

(** The errors into which the [catch] block of [generateWithGemini] turns
    a failure of the Gemini service. *)
Definition upstream_errors : list JsError :=
  [ HttpsError internal (js "AI service configuration error.");
    HttpsError resource_exhausted
      (js "AI service quota exceeded. Please try again later.");
    HttpsError invalid_argument
      (js "Content was blocked due to safety policies.");
    HttpsError internal (js "Failed to generate content.") ].

(** The runs of [generateWithGemini] on a store [s], one case for each way
    through the function: the completion and the world that each leaves. *)
Inductive CallableRun (env : Env) (data : Payload) (context : CallableContext)
    (s : Firestore) : Completion GenerationResult * World -> Prop :=
| RunUnauthenticated :
    auth context = None ->
    CallableRun env data context s
      (Thrown unauthenticated_error, {| store := s; trace := [] |})
| RunPromptRequired caller :
    auth context = Some caller ->
    non_blank_string (prompt data) = None ->
    CallableRun env data context s
      (Thrown prompt_required_error, {| store := s; trace := [] |})
| RunPromptTooLong caller p :
    auth context = Some caller ->
    non_blank_string (prompt data) = Some p ->
    8000 < JsString.length p ->
    CallableRun env data context s
      (Thrown prompt_too_long_error, {| store := s; trace := [] |})
| RunRateLimited caller p :
    auth context = Some caller ->
    non_blank_string (prompt data) = Some p ->
    JsString.length p <= 8000 ->
    over_limit (date_now env) (rateLimits s !! uid caller) ->
    CallableRun env data context s
      (Thrown rate_limit_error,
       {| store := s; trace := [EvRateLimitGet (uid caller)] |})
| RunUpstreamFailed caller p m e :
    auth context = Some caller ->
    non_blank_string (prompt data) = Some p ->
    JsString.length p <= 8000 ->
    ~ over_limit (date_now env) (rateLimits s !! uid caller) ->
    gemini env (callable_model env) p = Throws m ->
    e ∈ upstream_errors ->
    CallableRun env data context s
      (Thrown e,
       {| store := s;
          trace := [EvRateLimitGet (uid caller);
                    EvGenerateContent (callable_model env) p] |})
| RunGenerated caller p text :
    auth context = Some caller ->
    non_blank_string (prompt data) = Some p ->
    JsString.length p <= 8000 ->
    ~ over_limit (date_now env) (rateLimits s !! uid caller) ->
    gemini env (callable_model env) p = Text text ->
    let u := uid caller in
    let doc := next_rateLimit (date_now env) (rateLimits s !! u) in
    let entry := usage_entry env u p text in
    CallableRun env data context s
      (Returns {| response := text;
                  timestamp := toISOString (date_new env) |},
       {| store := {| rateLimits := <[u := doc]> (rateLimits s);
                      usage_logs := <[autoId env := entry]> (usage_logs s) |};
          trace := [EvRateLimitGet u;
                    EvGenerateContent (callable_model env) p;
                    EvRateLimitSet u doc;
                    EvUsageLogAdd (autoId env) entry] |}).

(** A request that [generateWithGemini] refuses at one of its checks, or
    whose generation fails: the caller is not signed in, the prompt is
    missing or blank, the prompt is too long, the caller is over the
    limit, or the Gemini service throws. *)
Definition refused (env : Env) (data : Payload) (context : CallableContext)
    (s : Firestore) : Prop :=
  auth context = None
  \/ non_blank_string (prompt data) = None
  \/ (exists p, non_blank_string (prompt data) = Some p
                /\ 8000 < JsString.length p)
  \/ (exists caller, auth context = Some caller
                     /\ over_limit (date_now env)
                          (rateLimits s !! uid caller))
  \/ (exists p m, non_blank_string (prompt data) = Some p
                  /\ gemini env (callable_model env) p = Throws m).

(** While the module is loaded, up to the definition of [geminiFlow]:
    nothing has bound [z], and the application does not listen. *)
Definition not_yet_listening (m : ModuleState) : Prop :=
  is_bound "z" m = false /\ listening (application m) = false.

(** What the record of [caller] says after [k] successes in a window:
    nothing when there was none, and otherwise a count of [k] in a window
    in which all the calls still to come lie. *)
Definition counted (caller : AuthData) (k : Z) (calls : list Call)
    (s : Firestore) : Prop :=
  (rateLimits s !! uid caller = None /\ k = 0)
  \/ (exists t,
        rateLimits s !! uid caller = Some {| count := k; lastReset := t |}
        /\ forall c, c ∈ calls -> date_now (call_env c) - t < oneHour).

(** The answer of the limiter to the request that brings the counter of
    its client to [h]. *)
Definition limiter_verdict (opts : LimiterOptions) (h : Z) : option Response :=
  if max opts <? h
  then Some {| status := 429; body := Send (message opts) |}
  else None.

(** ** Sample inputs *)

(** An environment whose clocks all read [now] and whose Gemini service
    gives the same answer to every call. *)
Definition sample_env (now : Z) (answer : Upstream) : Env :=
  {| date_now := now;
     date_new := now;
     serverTimestamp := now;
     autoId := js "log-1";
     gemini_api_key := js "server-key";
     gemini := fun _ _ => answer;
     idTokenValid := fun v => match v with JsString _ => true | _ => false end;
     NODE_ENV := Some (js "production") |}.

Definition empty_store : Firestore :=
  {| rateLimits := ∅; usage_logs := ∅ |}.

Definition alice : AuthData := {| uid := js "alice" |}.

Definition signed_in : CallableContext := {| auth := Some alice |}.

Definition payload (v : JsValue) : Payload :=
  {| prompt := v;
     idToken := JsString (js "token");
     apiKey := JsString (js "client-key") |}.

(** A store in which [alice] has used up a window that opened at time 0. *)
Definition stale_store : Firestore :=
  {| rateLimits := {[ uid alice := {| count := 25; lastReset := 0 |} ]};
     usage_logs := ∅ |}.

(** A store with one log entry written at time 0 and one written at the
    end of the thirty-first day. *)
Definition logged_store : Firestore :=
  {| rateLimits := {[ uid alice := {| count := 3; lastReset := 0 |} ]};
     usage_logs :=
       {[ js "log-a" := {| UsageLog.userId := uid alice;
                           UsageLog.timestamp := 0;
                           UsageLog.promptLength := 5;
                           UsageLog.responseLength := 2;
                           UsageLog.model := js "gemini-pro" |};
          js "log-b" := {| UsageLog.userId := uid alice;
                           UsageLog.timestamp := 31 * msPerDay;
                           UsageLog.promptLength := 5;
                           UsageLog.responseLength := 2;
                           UsageLog.model := js "gemini-pro" |} ]} |}.

(** A store whose log holds 501 entries, written at the times 0 to 500. *)
Definition crowded_store : Firestore :=
  {| rateLimits := ∅;
     usage_logs :=
       list_to_map
         ((fun i : nat =>
             ([N.of_nat i],
              {| UsageLog.userId := uid alice;
                 UsageLog.timestamp := Z.of_nat i;
                 UsageLog.promptLength := 5;
                 UsageLog.responseLength := 2;
                 UsageLog.model := js "gemini-pro" |})) <$> seq 0 501) |}.

(** * Properties *)

Arguments JsString.js : simpl never.

(** ** Strings and payload fields *)

Section Strings.

Implicit Types s pat : jsstring.

Lemma startsWith_spec s pat :
  JsString.startsWith s pat = true <-> exists rest, s = pat ++ rest.
Proof.
  revert s. induction pat as [|c pat IH]; intros [|d s]; simpl.
  - split; [intros _; by exists []|done].
  - split; [intros _; by exists (d :: s)|done].
  - split; [done|]. by intros (rest & [=]).
  - rewrite andb_true_iff, N.eqb_eq, IH. split.
    + intros (-> & rest & ->). by exists rest.
    + intros (rest & [= -> ->]). eauto.
Qed.

Lemma includes_nil pat :
  JsString.includes [] pat = JsString.startsWith [] pat.
Proof. unfold JsString.includes. apply orb_false_r. Qed.

Lemma includes_cons c s pat :
  JsString.includes (c :: s) pat
  = JsString.startsWith (c :: s) pat || JsString.includes s pat.
Proof. reflexivity. Qed.

(** [includes] is the search for a substring. *)
Lemma includes_spec s pat :
  JsString.includes s pat = true <-> exists pre post, s = pre ++ pat ++ post.
Proof.
  induction s as [|c s IH].
  - rewrite includes_nil, startsWith_spec. split.
    + intros (rest & H). by exists [], rest.
    + intros (pre & post & H). destruct pre; [by exists post|done].
  - rewrite includes_cons, orb_true_iff, startsWith_spec, IH. split.
    + intros [(rest & H) | (pre & post & ->)].
      * by exists [], rest.
      * by exists (c :: pre), post.
    + intros (pre & post & H). destruct pre as [|d pre].
      * left. by exists post.
      * right. injection H as -> ->. by exists pre, post.
Qed.

Lemma trimStart_nil s :
  JsString.trimStart s = []
  <-> Forall (fun c => JsString.is_white_space c = true) s.
Proof.
  induction s as [|c s IH]; simpl.
  - split; [constructor|done].
  - destruct (JsString.is_white_space c) eqn:E.
    + rewrite IH. split; [by constructor|by inversion 1].
    + split; [done|]. inversion 1; congruence.
Qed.

(** What [trimStart] returns does not start with white space. *)
Lemma trimStart_head s c rest :
  JsString.trimStart s = c :: rest -> JsString.is_white_space c = false.
Proof.
  induction s as [|d s IH]; simpl; [done|].
  destruct (JsString.is_white_space d) eqn:E; [done|]. by intros [= <- _].
Qed.

(** A string is empty after trimming exactly when it is made of white
    space only. *)
Lemma trim_nil_iff s :
  JsString.trim s = []
  <-> Forall (fun c => JsString.is_white_space c = true) s.
Proof.
  rewrite <- trimStart_nil. unfold JsString.trim, JsString.trimEnd. split.
  - intros H. apply (f_equal (@rev N)) in H. rewrite rev_involutive in H.
    simpl in H. apply trimStart_nil in H. apply Forall_rev in H.
    rewrite rev_involutive in H.
    destruct (JsString.trimStart s) as [|c rest] eqn:E; [done|].
    apply trimStart_head in E. inversion H; congruence.
  - by intros ->.
Qed.

End Strings.

Lemma trim_length_0 (s : jsstring) :
  (JsString.length (JsString.trim s) =? 0) = true <-> JsString.trim s = [].
Proof.
  unfold JsString.length. rewrite Z.eqb_eq.
  destruct (JsString.trim s); simpl; split; intros H; try done; lia.
Qed.

Lemma trim_nil : JsString.trim [] = [].
Proof. reflexivity. Qed.

Lemma non_blank_string_Some (v : JsValue) (p : jsstring) :
  non_blank_string v = Some p -> v = JsString p /\ JsString.trim p <> [].
Proof.
  unfold non_blank_string. destruct (negb (to_boolean v)); [done|].
  destruct v as [| | | |s|]; try done.
  destruct (JsString.length (JsString.trim s) =? 0) eqn:E; [done|].
  intros [= ->]. split; [done|]. intros H. apply trim_length_0 in H. congruence.
Qed.

Lemma non_blank_string_intro (p : jsstring) :
  JsString.trim p <> [] -> non_blank_string (JsString p) = Some p.
Proof.
  intros H. unfold non_blank_string. simpl.
  destruct p as [|c p]; [by rewrite trim_nil in H|].
  replace (JsString.length (c :: p) =? 0) with false
    by (unfold JsString.length; simpl; lia).
  simpl. destruct (JsString.length (JsString.trim (c :: p)) =? 0) eqn:E; [|done].
  apply trim_length_0 in E. done.
Qed.

Lemma non_blank_string_blank (s : jsstring) :
  JsString.trim s = [] -> non_blank_string (JsString s) = None.
Proof.
  intros H. unfold non_blank_string.
  destruct (negb (to_boolean (JsString s))); [done|].
  apply trim_length_0 in H. by rewrite H.
Qed.

Lemma non_blank_string_not_string (v : JsValue) :
  (forall s, v <> JsString s) -> non_blank_string v = None.
Proof.
  intros H. unfold non_blank_string.
  destruct (negb (to_boolean v)); [done|].
  destruct v; try done. by destruct (H s).
Qed.

(** ** The stages of [generateWithGemini] *)

Section Callable.

Variables (env : Env) (data : Payload) (context : CallableContext).
Variable s : Firestore.

Let outcome := run (generateWithGemini env data context) s.

(** The errors that the [try] block raises itself go through the [catch]
    block unchanged: none of their messages holds one of the patterns. *)
Lemma catch_rethrows_own (A : Type) (e : JsError) (w : World) :
  e ∈ [unauthenticated_error; prompt_required_error;
       prompt_too_long_error; rate_limit_error] ->
  @generateWithGemini_catch A e w = (Thrown e, w).
Proof.
  rewrite !elem_of_cons, elem_of_nil.
  intros [-> | [-> | [-> | [-> | []]]]]; reflexivity.
Qed.

Lemma callable_unauthenticated :
  auth context = None ->
  outcome = (Thrown unauthenticated_error, {| store := s; trace := [] |}).
Proof.
  intros H. unfold outcome, run, generateWithGemini, try_catch,
    generateWithGemini_try. rewrite H. unfold throw.
  apply (catch_rethrows_own _ unauthenticated_error). set_solver.
Qed.

Lemma callable_prompt_required (caller : AuthData) :
  auth context = Some caller ->
  non_blank_string (prompt data) = None ->
  outcome = (Thrown prompt_required_error, {| store := s; trace := [] |}).
Proof.
  intros H1 H2. unfold outcome, run, generateWithGemini, try_catch,
    generateWithGemini_try. rewrite H1, H2. unfold throw.
  apply (catch_rethrows_own _ prompt_required_error). set_solver.
Qed.

Lemma callable_prompt_too_long (caller : AuthData) (p : jsstring) :
  auth context = Some caller ->
  non_blank_string (prompt data) = Some p ->
  8000 < JsString.length p ->
  outcome = (Thrown prompt_too_long_error, {| store := s; trace := [] |}).
Proof.
  intros H1 H2 H3. unfold outcome, run, generateWithGemini, try_catch,
    generateWithGemini_try. rewrite H1, H2.
  apply Z.ltb_lt in H3. rewrite H3. unfold throw.
  apply (catch_rethrows_own _ prompt_too_long_error). set_solver.
Qed.

Lemma over_limit_true (now : Z) (d : RateLimit) :
  (now - lastReset d <? oneHour) && (20 <=? count d) = true ->
  over_limit now (Some d).
Proof.
  intros [H1 H2]%andb_true_iff. exists d.
  apply Z.ltb_lt in H1. apply Z.leb_le in H2. done.
Qed.

Lemma over_limit_false (now : Z) (d : RateLimit) :
  (now - lastReset d <? oneHour) && (20 <=? count d) = false ->
  ~ over_limit now (Some d).
Proof.
  intros H (d' & [= <-] & H1 & H2).
  apply Z.ltb_lt in H1. apply Z.leb_le in H2. by rewrite H1, H2 in H.
Qed.

Lemma callable_over_limit (caller : AuthData) (p : jsstring) :
  auth context = Some caller ->
  non_blank_string (prompt data) = Some p ->
  JsString.length p <= 8000 ->
  over_limit (date_now env) (rateLimits s !! uid caller) ->
  outcome = (Thrown rate_limit_error,
             {| store := s; trace := [EvRateLimitGet (uid caller)] |}).
Proof.
  intros H1 H2 H3 (d & Hd & Hw & Hc).
  unfold outcome, run, generateWithGemini, try_catch, generateWithGemini_try.
  rewrite H1, H2. replace (8000 <? JsString.length p) with false by lia.
  unfold rateLimit_get, bind, emit, get_store, ret. simpl. rewrite Hd.
  unfold in_window in Hw.
  replace (date_now env - lastReset d <? oneHour) with true by lia.
  replace (20 <=? count d) with true by lia. simpl. unfold throw.
  apply (catch_rethrows_own _ rate_limit_error). set_solver.
Qed.

Lemma callable_generated (caller : AuthData) (p text : jsstring) :
  auth context = Some caller ->
  non_blank_string (prompt data) = Some p ->
  JsString.length p <= 8000 ->
  ~ over_limit (date_now env) (rateLimits s !! uid caller) ->
  gemini env (callable_model env) p = Text text ->
  let u := uid caller in
  let doc := next_rateLimit (date_now env) (rateLimits s !! u) in
  let entry := usage_entry env u p text in
  outcome =
    (Returns {| response := text; timestamp := toISOString (date_new env) |},
     {| store := {| rateLimits := <[u := doc]> (rateLimits s);
                    usage_logs := <[autoId env := entry]> (usage_logs s) |};
        trace := [EvRateLimitGet u;
                  EvGenerateContent (callable_model env) p;
                  EvRateLimitSet u doc;
                  EvUsageLogAdd (autoId env) entry] |}).
Proof.
  intros H1 H2 H3 Hlim Hup.
  unfold outcome, run, generateWithGemini, try_catch, generateWithGemini_try.
  rewrite H1, H2. replace (8000 <? JsString.length p) with false by lia.
  unfold rateLimit_get, rateLimit_set, usage_logs_add, generateContent,
    bind, emit, get_store, put_store, ret. simpl.
  fold (callable_model env). rewrite Hup.
  destruct (rateLimits s !! uid caller) as [d|] eqn:Hd; simpl.
  - destruct ((date_now env - lastReset d <? oneHour) && (20 <=? count d))
      eqn:E; [by apply over_limit_true in E|].
    simpl. unfold usage_entry.
    destruct (date_now env - lastReset d <? oneHour); reflexivity.
  - reflexivity.
Qed.

Lemma callable_upstream_throws (caller : AuthData) (p : jsstring)
    (m : option jsstring) :
  auth context = Some caller ->
  non_blank_string (prompt data) = Some p ->
  JsString.length p <= 8000 ->
  ~ over_limit (date_now env) (rateLimits s !! uid caller) ->
  gemini env (callable_model env) p = Throws m ->
  outcome =
    generateWithGemini_catch (Error m)
      {| store := s;
         trace := [EvRateLimitGet (uid caller);
                   EvGenerateContent (callable_model env) p] |}.
Proof.
  intros H1 H2 H3 Hlim Hup.
  unfold outcome, run, generateWithGemini, try_catch, generateWithGemini_try.
  rewrite H1, H2. replace (8000 <? JsString.length p) with false by lia.
  unfold rateLimit_get, generateContent, bind, emit, get_store, ret. simpl.
  fold (callable_model env). rewrite Hup.
  destruct (rateLimits s !! uid caller) as [d|] eqn:Hd; simpl; [|done].
  destruct ((date_now env - lastReset d <? oneHour) && (20 <=? count d))
    eqn:E; [by apply over_limit_true in E|done].
Qed.

End Callable.

Lemma over_limit_decide (now : Z) (doc : option RateLimit) :
  over_limit now doc \/ ~ over_limit now doc.
Proof.
  destruct doc as [d|].
  - destruct ((now - lastReset d <? oneHour) && (20 <=? count d)) eqn:E.
    + left. by apply over_limit_true.
    + right. by apply over_limit_false.
  - right. by intros (d & [=] & _).
Qed.

(** The [catch] block always throws, and leaves the world as it is. *)
Lemma catch_throws (A : Type) (e : JsError) (w : World) :
  exists e', @generateWithGemini_catch A e w = (Thrown e', w).
Proof.
  unfold generateWithGemini_catch.
  repeat (match goal with |- context [if ?b then _ else _] => destruct b end);
    eexists; reflexivity.
Qed.

(** Replaces a run of the [catch] block in the goal by the error it
    throws. *)
Ltac caught :=
  match goal with
  | |- context [generateWithGemini_catch (Error ?m) ?w] =>
      let e := fresh "e" in
      destruct (catch_throws GenerationResult (Error m) w) as [e ->]
  end.

(** A request that passes validation reads the caller's rate-limit record
    first. *)
Lemma callable_valid_reads (env : Env) (data : Payload)
    (context : CallableContext) (caller : AuthData) (p : jsstring)
    (s : Firestore) :
  auth context = Some caller ->
  non_blank_string (prompt data) = Some p ->
  JsString.length p <= 8000 ->
  exists rest,
    trace (run (generateWithGemini env data context) s).2
    = EvRateLimitGet (uid caller) :: rest.
Proof.
  intros H1 H2 H3.
  destruct (over_limit_decide (date_now env) (rateLimits s !! uid caller))
    as [Hl|Hl].
  - rewrite (callable_over_limit _ _ _ _ caller p); eauto.
  - destruct (gemini env (callable_model env) p) as [text|m] eqn:Hup.
    + rewrite (callable_generated _ _ _ _ caller p text); eauto.
    + rewrite (callable_upstream_throws _ _ _ _ caller p m); auto.
      caught. eauto.
Qed.

(** ** Validation of the prompt *)

(** C6 fails on the payload [null], the [data] of a call made without an
    argument: for a caller who is signed in, the destructuring of line 29
    throws inside the [try] block and the [catch] block turns the
    [TypeError] into [internal], where the claim has [invalid-argument] for
    a prompt that is absent.  Nothing is performed and the store is left as
    it was. *)
Theorem null_payload_is_internal (env : Env) (caller : AuthData)
    (s : Firestore) :
  let r := run (generateWithGemini_onCall env None {| auth := Some caller |})
             s in
  r = (Thrown (HttpsError internal (js "Failed to generate content.")),
       {| store := s; trace := [] |})
  /\ thrown_code r.1 <> Some invalid_argument.
Proof.
  intros r.
  assert (r = (Thrown (HttpsError internal (js "Failed to generate content.")),
               {| store := s; trace := [] |})) as ->.
  { unfold r, run, generateWithGemini_onCall, try_catch. simpl.
    unfold throw. reflexivity. }
  split; [done|]. simpl. discriminate.
Qed.

(** X23.  On a payload that is an object, for a caller who is signed in,
    [generateWithGemini] rejects the prompt with [invalid-argument] when it
    is absent, not a string or empty after trimming, and when it is longer
    than 8000; a rejected prompt leaves the store as it was and performs no
    operation (no upstream call, no log entry).  A prompt of length exactly
    8000 that is not blank goes on to the rate limiter and, for a caller
    under the limit, to a successful result. *)
Theorem prompt_validation (env : Env) (data : Payload)
    (context : CallableContext) (caller : AuthData) (s : Firestore) :
  auth context = Some caller ->
  let outcome := run (generateWithGemini env data context) s in
  let untouched := {| store := s; trace := [] |} in
  ((prompt data = JsUndefined
    \/ (forall p, prompt data <> JsString p)
    \/ (exists p, prompt data = JsString p /\ JsString.trim p = [])) ->
   thrown_code outcome.1 = Some invalid_argument /\ outcome.2 = untouched)
  /\ (forall p, prompt data = JsString p -> 8000 < JsString.length p ->
      thrown_code outcome.1 = Some invalid_argument /\ outcome.2 = untouched)
  /\ (forall p, prompt data = JsString p -> JsString.trim p <> [] ->
      JsString.length p = 8000 ->
      (exists rest, trace outcome.2 = EvRateLimitGet (uid caller) :: rest)
      /\ (forall text,
            ~ over_limit (date_now env) (rateLimits s !! uid caller) ->
            gemini env (callable_model env) p = Text text ->
            outcome.1 = Returns {| response := text;
                                   timestamp := toISOString (date_new env) |})).
Proof.
  intros Hauth outcome untouched. unfold outcome.
  split; [|split].
  - intros Hrejected.
    assert (non_blank_string (prompt data) = None) as Hnone.
    { destruct Hrejected as [H | [H | (p & H & Hp)]].
      + by rewrite H.
      + by apply non_blank_string_not_string.
      + rewrite H. by apply non_blank_string_blank. }
    by rewrite (callable_prompt_required _ _ _ _ caller).
  - intros p Hprompt Hlong.
    destruct (non_blank_string (prompt data)) as [q|] eqn:Hq.
    + destruct (non_blank_string_Some _ _ Hq) as [Hv _].
      assert (q = p) as -> by congruence.
      by rewrite (callable_prompt_too_long _ _ _ _ caller p).
    + by rewrite (callable_prompt_required _ _ _ _ caller).
  - intros p Hprompt Hp Hlen.
    assert (non_blank_string (prompt data) = Some p) as Hq
      by (rewrite Hprompt; by apply non_blank_string_intro).
    split.
    + apply (callable_valid_reads env data context caller p); [done..|lia].
    + intros text Hl Hup.
      rewrite (callable_generated _ _ _ _ caller p text); auto. lia.
Qed.

Lemma prompt_validation_witness :
  let env := sample_env 1000 (Text (js "Hi")) in
  let long := replicate (Z.to_nat 8000) 97%N in
  thrown_code
    (run (generateWithGemini env (payload JsUndefined) signed_in)
         empty_store).1 = Some invalid_argument
  /\ (run (generateWithGemini env (payload (JsString long)) signed_in)
          empty_store).1
     = Returns {| response := js "Hi"; timestamp := toISOString 1000 |}.
Proof.
  intros env long. split.
  - apply (prompt_validation env (payload JsUndefined) signed_in alice
             empty_store eq_refl).
    by left.
  - apply (prompt_validation env (payload (JsString long)) signed_in alice
             empty_store eq_refl) with (p := long).
    + reflexivity.
    + intros H%trim_length_0. vm_compute in H. discriminate.
    + vm_compute. reflexivity.
    + intros (d & H & _). vm_compute in H. discriminate.
    + reflexivity.
Defined.

(** ** The rate limiter *)

(** What a request that is let through does: it calls the Gemini service,
    and writes the caller's record only when the service has answered. *)
Lemma callable_step (env : Env) (data : Payload) (context : CallableContext)
    (caller : AuthData) (p : jsstring) (s : Firestore) :
  auth context = Some caller ->
  non_blank_string (prompt data) = Some p ->
  JsString.length p <= 8000 ->
  ~ over_limit (date_now env) (rateLimits s !! uid caller) ->
  let r := run (generateWithGemini env data context) s in
  contacts_upstream (trace r.2)
  /\ match gemini env (callable_model env) p with
     | Text _ =>
         rateLimits (store r.2)
         = <[uid caller := next_rateLimit (date_now env)
                             (rateLimits s !! uid caller)]> (rateLimits s)
     | Throws _ => store r.2 = s
     end.
Proof.
  intros H1 H2 H3 Hl r. unfold r.
  destruct (gemini env (callable_model env) p) as [text|m] eqn:Hup.
  - by rewrite (callable_generated _ _ _ _ caller p text).
  - rewrite (callable_upstream_throws _ _ _ _ caller p m) by done.
    caught. done.
Qed.

Section Window.

Variable caller : AuthData.

Let u := uid caller.

(** While fewer than twenty requests have been served, the stored count
    stays below twenty, whatever the Gemini service answers: every request
    is let through. *)
Lemma serve_under_limit (calls : list Call) :
  forall (s : Firestore) (k : Z),
    0 <= k ->
    (forall d, rateLimits s !! u = Some d -> count d <= k) ->
    k + Z.of_nat (length calls) <= 20 ->
    Forall (valid_call caller) calls ->
    Forall (fun r => contacts_upstream r.2) (serve calls s).1.
Proof.
  induction calls as [|c calls IH]; intros s k Hk Hcount Hlen Hvalid.
  - constructor.
  - apply Forall_cons in Hvalid as [(Hauth & p & Hp & Hp8) Hvalid].
    simpl in Hlen. simpl.
    assert (~ over_limit (date_now (call_env c)) (rateLimits s !! u)) as Hl.
    { intros (d & Hd & _ & Hc). apply Hcount in Hd. lia. }
    destruct (callable_step (call_env c) (call_data c) (call_context c)
                caller p s Hauth Hp Hp8 Hl) as [Hup Hstore].
    constructor; [exact Hup|].
    apply (IH _ (k + 1)); [lia| |lia|done].
    intros d Hd. unfold handle in Hd.
    destruct (gemini (call_env c) (callable_model (call_env c)) p).
    + rewrite Hstore in Hd. fold u in Hd. rewrite lookup_insert_eq in Hd.
      injection Hd as <-. unfold next_rateLimit.
      destruct (rateLimits s !! u) as [d0|] eqn:Hd0; simpl; [|lia].
      specialize (Hcount d0 eq_refl).
      destruct (date_now (call_env c) - lastReset d0 <? oneHour); simpl; lia.
    + rewrite Hstore in Hd. apply Hcount in Hd. lia.
Qed.

(** While the window opened at [t0] runs and the Gemini service answers,
    every request served adds one to the stored count. *)
Lemma serve_counts (t0 : Z) (calls : list Call) :
  forall (s : Firestore) (k : Z),
    rateLimits s !! u = Some {| count := k; lastReset := t0 |} ->
    k + Z.of_nat (length calls) <= 20 ->
    Forall (valid_call caller) calls ->
    Forall (fun c => date_now (call_env c) - t0 < oneHour) calls ->
    Forall upstream_answers calls ->
    rateLimits (serve calls s).2 !! u
    = Some {| count := k + Z.of_nat (length calls); lastReset := t0 |}.
Proof.
  induction calls as [|c calls IH]; intros s k Hrec Hlen Hvalid Hwin Hans.
  - simpl. rewrite Hrec. do 2 f_equal. lia.
  - apply Forall_cons in Hvalid as [(Hauth & p & Hp & Hp8) Hvalid].
    apply Forall_cons in Hwin as [Hw Hwin].
    apply Forall_cons in Hans as [(p' & text & Hp' & Htext) Hans].
    assert (p' = p) as -> by congruence.
    simpl in Hlen. simpl.
    assert (~ over_limit (date_now (call_env c)) (rateLimits s !! u)) as Hl.
    { intros (d & Hd & _ & Hc). rewrite Hrec in Hd. injection Hd as <-.
      simpl in Hc. lia. }
    destruct (callable_step (call_env c) (call_data c) (call_context c)
                caller p s Hauth Hp Hp8 Hl) as [_ Hstore].
    rewrite Htext in Hstore. fold u in Hstore. rewrite Hrec in Hstore.
    unfold next_rateLimit in Hstore. simpl in Hstore.
    replace (date_now (call_env c) - t0 <? oneHour) with true in Hstore by lia.
    rewrite (IH _ (k + 1)); [do 2 f_equal; lia| |lia|done..].
    unfold handle. rewrite Hstore. apply lookup_insert_eq.
Qed.

(** The first request of a caller without a record opens the window. *)
Lemma serve_first (c : Call) (s : Firestore) :
  rateLimits s !! u = None ->
  valid_call caller c ->
  upstream_answers c ->
  rateLimits (store (run (handle c) s).2) !! u
  = Some {| count := 1; lastReset := date_now (call_env c) |}.
Proof.
  intros Hnone (Hauth & p & Hp & Hp8) (p' & text & Hp' & Htext).
  assert (p' = p) as -> by congruence.
  assert (~ over_limit (date_now (call_env c)) (rateLimits s !! u)) as Hl.
  { intros (d & Hd & _). by rewrite Hnone in Hd. }
  destruct (callable_step (call_env c) (call_data c) (call_context c)
              caller p s Hauth Hp Hp8 Hl) as [_ Hstore].
  rewrite Htext in Hstore. fold u in Hstore. rewrite Hnone in Hstore.
  unfold handle. rewrite Hstore. apply lookup_insert_eq.
Qed.

End Window.

(** C2, as amended.  A request of a user whose record has [count >= 20]
    in a window still running is refused with [resource-exhausted]: the
    only operation performed is the read of the record, and the store is
    left as it was.  For a user without a record, requests 1 to 20 are all
    let through; request 21 in the same window is refused when the Gemini
    service has answered each of the first twenty (a request whose
    generation fails is not counted). *)
Theorem rate_limit_window :
  (forall env data context caller p d s,
     auth context = Some caller ->
     non_blank_string (prompt data) = Some p ->
     JsString.length p <= 8000 ->
     rateLimits s !! uid caller = Some d ->
     20 <= count d ->
     date_now env - lastReset d < oneHour ->
     run (generateWithGemini env data context) s
     = (Thrown rate_limit_error,
        {| store := s; trace := [EvRateLimitGet (uid caller)] |}))
  /\ (forall caller first rest last s,
        rateLimits s !! uid caller = None ->
        length rest = 19%nat ->
        Forall (valid_call caller) (first :: rest ++ [last]) ->
        Forall (fun c => date_now (call_env c) - date_now (call_env first)
                         < oneHour) (first :: rest ++ [last]) ->
        let served := serve (first :: rest) s in
        Forall (fun r => contacts_upstream r.2) served.1
        /\ (Forall upstream_answers (first :: rest) ->
            run (handle last) served.2
            = (Thrown rate_limit_error,
               {| store := served.2;
                  trace := [EvRateLimitGet (uid caller)] |}))).
Proof.
  split.
  - intros env data context caller p d s Hauth Hp Hp8 Hd Hc Hw.
    apply (callable_over_limit env data context s caller p); try done.
    by exists d.
  - intros caller first rest last s Hnone Hlen Hvalid Hwin served.
    rewrite app_comm_cons in Hvalid, Hwin.
    apply Forall_app in Hvalid as [Hvalid Hlast].
    apply Forall_app in Hwin as [Hwin Hwlast].
    rewrite Forall_singleton in Hlast. rewrite Forall_singleton in Hwlast.
    split.
    + apply (serve_under_limit caller _ s 0); [lia| |simpl; lia|done].
      intros d Hd. by rewrite Hnone in Hd.
    + intros Hans. unfold served. simpl.
      apply Forall_cons in Hvalid as [Hfirst Hvalid].
      apply Forall_cons in Hwin as [_ Hwin].
      apply Forall_cons in Hans as [Hafirst Hans].
      pose proof (serve_first caller first s Hnone Hfirst Hafirst) as H1.
      pose proof (serve_counts caller _ rest _ 1 H1) as H20.
      rewrite Hlen in H20. specialize (H20 ltac:(lia) Hvalid Hwin Hans).
      destruct Hlast as (Hauth & p & Hp & Hp8).
      apply (callable_over_limit _ _ _ _ caller p); try done.
      eexists. split; [exact H20|]. split; [exact Hwlast|simpl; lia].
Qed.

Lemma rate_limit_window_witness :
  let hello := payload (JsString (js "Hello")) in
  let c := {| call_env := sample_env 1000 (Text (js "Hi"));
              call_data := hello;
              call_context := signed_in |} in
  let served := serve (replicate 20 c) empty_store in
  Forall (fun r => contacts_upstream r.2) served.1
  /\ run (handle c) served.2
     = (Thrown rate_limit_error,
        {| store := served.2; trace := [EvRateLimitGet (uid alice)] |}).
Proof.
  intros hello c served.
  assert (valid_call alice c) as Hvalid.
  { split; [reflexivity|]. exists (js "Hello"). split; [reflexivity|].
    vm_compute. discriminate. }
  destruct rate_limit_window as [_ H].
  destruct (H alice c (replicate 19 c) c empty_store) as [Hall Hlast].
  - reflexivity.
  - reflexivity.
  - constructor; [done|]. apply Forall_app. split.
    + by apply Forall_replicate.
    + by constructor.
  - constructor; [reflexivity|]. apply Forall_app. split.
    + by apply Forall_replicate.
    + by constructor.
  - split; [exact Hall|]. apply Hlast.
    apply (Forall_replicate _ 20).
    exists (js "Hello"), (js "Hi"). split; reflexivity.
Defined.

(** C2, as stated, fails: when the generation of the first request fails,
    nothing is counted for it, and the twenty-first request in the window
    is let through. *)
Lemma failed_request_is_not_counted :
  let hello := payload (JsString (js "Hello")) in
  let ok := {| call_env := sample_env 1000 (Text (js "Hi"));
               call_data := hello;
               call_context := signed_in |} in
  let failing := {| call_env := sample_env 1000 (Throws (Some (js "fetch failed")));
                    call_data := hello;
                    call_context := signed_in |} in
  let served := serve (failing :: replicate 19 ok) empty_store in
  rateLimits empty_store !! uid alice = None
  /\ length (failing :: replicate 19 ok) = 20%nat
  /\ contacts_upstream (trace (run (handle ok) served.2).2)
  /\ (run (handle ok) served.2).1
     = Returns {| response := js "Hi"; timestamp := toISOString 1000 |}.
Proof.
  intros hello ok failing served.
  split; [reflexivity|]. split; [reflexivity|].
  split; vm_compute; reflexivity.
Qed.

(** C3, as amended.  When the record of the caller is at least one hour
    old, the request is let through whatever the stored count is.  When the
    Gemini service answers, the record is then written with [count = 1] and
    [lastReset = now]; when the generation fails, the store is left as it
    was. *)
Theorem expired_window_resets (env : Env) (data : Payload)
    (context : CallableContext) (caller : AuthData) (p : jsstring)
    (d : RateLimit) (s : Firestore) :
  auth context = Some caller ->
  non_blank_string (prompt data) = Some p ->
  JsString.length p <= 8000 ->
  rateLimits s !! uid caller = Some d ->
  oneHour <= date_now env - lastReset d ->
  let r := run (generateWithGemini env data context) s in
  let fresh := {| count := 1; lastReset := date_now env |} in
  contacts_upstream (trace r.2)
  /\ (forall text,
        gemini env (callable_model env) p = Text text ->
        r.1 = Returns {| response := text;
                         timestamp := toISOString (date_new env) |}
        /\ rateLimits (store r.2) !! uid caller = Some fresh
        /\ EvRateLimitSet (uid caller) fresh ∈ trace r.2)
  /\ (forall m,
        gemini env (callable_model env) p = Throws m -> store r.2 = s).
Proof.
  intros Hauth Hp Hp8 Hd Hold r fresh.
  assert (~ over_limit (date_now env) (rateLimits s !! uid caller)) as Hl.
  { intros (d' & Hd' & Hw & _). unfold in_window in Hw.
    assert (d' = d) as -> by congruence. lia. }
  destruct (callable_step env data context caller p s Hauth Hp Hp8 Hl)
    as [Hup Hstore].
  split; [exact Hup|]. split.
  - intros text Htext. unfold r.
    rewrite (callable_generated _ _ _ _ caller p text) by done.
    rewrite Hd. unfold next_rateLimit.
    replace (date_now env - lastReset d <? oneHour) with false by lia.
    simpl. split; [done|]. split; [apply lookup_insert_eq|].
    fold fresh. set_solver.
  - intros m Hm. by rewrite Hm in Hstore.
Qed.

Lemma expired_window_resets_witness :
  let env := sample_env (2 * oneHour) (Text (js "Hi")) in
  let r := run (generateWithGemini env (payload (JsString (js "Hello")))
                  signed_in) stale_store in
  contacts_upstream (trace r.2)
  /\ rateLimits (store r.2) !! uid alice
     = Some {| count := 1; lastReset := 2 * oneHour |}.
Proof.
  intros env r.
  destruct (expired_window_resets env (payload (JsString (js "Hello")))
              signed_in alice (js "Hello") {| count := 25; lastReset := 0 |}
              stale_store) as (Hup & Hok & _).
  - reflexivity.
  - reflexivity.
  - vm_compute. discriminate.
  - reflexivity.
  - vm_compute. discriminate.
  - split; [exact Hup|]. by destruct (Hok (js "Hi") eq_refl) as (_ & Hrec & _).
Defined.

(** C3, as stated, fails: the record is written after the generation, so
    a request whose generation fails leaves the old record in place. *)
Lemma expired_window_failed_generation :
  let env := sample_env (2 * oneHour) (Throws (Some (js "fetch failed"))) in
  let r := run (generateWithGemini env (payload (JsString (js "Hello")))
                  signed_in) stale_store in
  rateLimits stale_store !! uid alice = Some {| count := 25; lastReset := 0 |}
  /\ oneHour <= date_now env - 0
  /\ contacts_upstream (trace r.2)
  /\ rateLimits (store r.2) !! uid alice
     = Some {| count := 25; lastReset := 0 |}
  /\ existsb is_rate_limit_write (trace r.2) = false.
Proof.
  intros env r. split; [reflexivity|]. split; [vm_compute; discriminate|].
  split; [reflexivity|]. split; reflexivity.
Qed.

(** ** The order of the steps *)



(** ** The stages of [POST /generate] *)

Section Express.

Variables (env : Env) (received : Payload) (s : Firestore).

Let outcome := run (generate env received) s.

Lemma express_key_required :
  non_blank_string (apiKey received) = None ->
  outcome
  = (Returns {| status := 400;
                body := JsonError
                  (js "API key is required and must be a non-empty string")
                  None |},
     {| store := s; trace := [] |}).
Proof.
  intros H. unfold outcome, run, generate, try_catch. by rewrite H.
Qed.

Lemma express_prompt_required (key : jsstring) :
  non_blank_string (apiKey received) = Some key ->
  non_blank_string (prompt received) = None ->
  outcome
  = (Returns {| status := 400;
                body := JsonError
                  (js "Prompt is required and must be a non-empty string")
                  None |},
     {| store := s; trace := [] |}).
Proof.
  intros H1 H2. unfold outcome, run, generate, try_catch. by rewrite H1, H2.
Qed.

Lemma express_generated (key p text : jsstring) :
  non_blank_string (apiKey received) = Some key ->
  non_blank_string (prompt received) = Some p ->
  gemini env (express_model key) p = Text text ->
  JsString.trim text <> [] ->
  outcome
  = (Returns {| status := 200;
                body := JsonGenerated
                          {| response := text;
                             timestamp := toISOString (date_new env) |} |},
     {| store := s; trace := [EvGenerateContent (express_model key) p] |}).
Proof.
  intros H1 H2 Hup Htext.
  pose proof (non_blank_string_intro text Htext) as Hnb.
  unfold non_blank_string in Hnb. simpl in Hnb.
  unfold outcome, run, generate, try_catch. rewrite H1, H2.
  unfold generateContent, bind, emit, ret. simpl.
  fold (express_model key). rewrite Hup.
  destruct (JsString.length text =? 0); [done|].
  by destruct (JsString.length (JsString.trim text) =? 0).
Qed.

Lemma express_no_content (key p text : jsstring) :
  non_blank_string (apiKey received) = Some key ->
  non_blank_string (prompt received) = Some p ->
  gemini env (express_model key) p = Text text ->
  JsString.trim text = [] ->
  outcome
  = (Returns {| status := 500;
                body := JsonError (js "No content was generated") None |},
     {| store := s; trace := [EvGenerateContent (express_model key) p] |}).
Proof.
  intros H1 H2 Hup Htext. apply trim_length_0 in Htext.
  unfold outcome, run, generate, try_catch. rewrite H1, H2.
  unfold generateContent, bind, emit, ret. simpl.
  fold (express_model key). rewrite Hup, Htext.
  by rewrite orb_true_r.
Qed.

Lemma express_upstream_throws (key p : jsstring) (m : option jsstring) :
  non_blank_string (apiKey received) = Some key ->
  non_blank_string (prompt received) = Some p ->
  gemini env (express_model key) p = Throws m ->
  outcome
  = generate_catch env (Error m)
      {| store := s; trace := [EvGenerateContent (express_model key) p] |}.
Proof.
  intros H1 H2 Hup.
  unfold outcome, run, generate, try_catch. rewrite H1, H2.
  unfold generateContent, bind, emit, ret. simpl.
  fold (express_model key). by rewrite Hup.
Qed.

End Express.

(** ** Classification of upstream failures *)




(** ** The Express module as it is loaded *)

(** Loading the module under Node stops at the definition of [geminiFlow]:
    the routes [/health] and [/generate] are registered by then, behind
    the limiter and the body parser, and [app.listen] is not reached. *)
Lemma server_module_load :
  (server_module node_scope).1 = Thrown (ReferenceError "z")
  /\ stack (application (server_module node_scope).2)
     = [UseHelmet; UseCors; UseLimiter; UseJson;
        RouteGetHealth; RoutePostGenerate]
  /\ listening (application (server_module node_scope).2) = false.
Proof.
  split; [|split]; vm_compute; reflexivity.
Qed.

Lemma client_gets_nothing {A} (answer : A) :
  client_gets (server_module node_scope) answer = None.
Proof.
  unfold client_gets. destruct server_module_load as [-> _]. done.
Qed.

(** ** The two entry points compared *)

(** C4, as amended.  The handler of the callable function and the handler
    registered for [POST /generate], run on the same payload, give the
    same verdict (both accept, or both reject with the same error kind)
    on the requests where: the caller is signed in and supplies an API key,
    the prompt, if a string, is at most 8000 long, the caller is under the
    rate limit, the Gemini service answers both alike, a text it returns
    is not blank, and the message of a failure contains none of
    [API_KEY_INVALID], [invalid API key] and [quota].  The statement is
    about the two handlers, not about what is registered in front of
    them. *)
Theorem entry_points_agree (env : Env) (data : Payload)
    (context : CallableContext) (caller : AuthData) (key : jsstring)
    (s : Firestore) :
  auth context = Some caller ->
  non_blank_string (apiKey data) = Some key ->
  (forall p, prompt data = JsString p -> JsString.length p <= 8000) ->
  ~ over_limit (date_now env) (rateLimits s !! uid caller) ->
  (forall p, gemini env (callable_model env) p
             = gemini env (express_model key) p) ->
  (forall p text, gemini env (express_model key) p = Text text ->
                  JsString.trim text <> []) ->
  (forall p m, gemini env (express_model key) p = Throws m ->
               mentions m "API_KEY_INVALID" = false
               /\ mentions m "invalid API key" = false
               /\ mentions m "quota" = false) ->
  callable_verdict (run (generateWithGemini env data context) s).1
  = http_verdict (run (generate env data) s).1.
Proof.
  intros Hauth Hkey Hlen Hl Hsame Htext Hfail.
  destruct (non_blank_string (prompt data)) as [p|] eqn:Hp.
  - destruct (non_blank_string_Some _ _ Hp) as [Hv _].
    specialize (Hlen p Hv). specialize (Hsame p).
    destruct (gemini env (express_model key) p) as [text|m] eqn:Hup.
    + rewrite (callable_generated _ _ _ _ caller p text) by done.
      rewrite (express_generated _ _ _ key p text); eauto.
    + destruct (Hfail p m Hup) as (Hk1 & Hk2 & Hq). unfold mentions in *.
      rewrite (callable_upstream_throws _ _ _ _ caller p m) by done.
      rewrite (express_upstream_throws _ _ _ key p m) by done.
      unfold generateWithGemini_catch, generate_catch.
      rewrite Hk1, Hk2, Hq. simpl.
      destruct (message_includes (Error m) (js "QUOTA_EXCEEDED")); [done|].
      destruct (message_includes (Error m) (js "SAFETY")); done.
  - rewrite (callable_prompt_required _ _ _ _ caller) by done.
    by rewrite (express_prompt_required _ _ _ key).
Qed.

Lemma entry_points_agree_witness :
  let env := sample_env 1000 (Throws (Some (js "blocked: SAFETY"))) in
  let hello := payload (JsString (js "Hello")) in
  callable_verdict (run (generateWithGemini env hello signed_in) empty_store).1
  = http_verdict (run (generate env hello) empty_store).1.
Proof.
  intros env hello.
  apply (entry_points_agree env hello signed_in alice (js "client-key")).
  - reflexivity.
  - reflexivity.
  - intros p [= <-]. vm_compute. discriminate.
  - intros (d & H & _). vm_compute in H. discriminate.
  - reflexivity.
  - intros p text [=].
  - intros p m [= <-]. repeat split; reflexivity.
Defined.

(** C4, as stated, fails.  The Express module throws while it is loaded and
    never calls [app.listen], so that a client of [POST /generate] gets no
    answer to a request that the callable function accepts.  And the two
    handlers differ: a prompt of 8001 characters is rejected by the
    callable function and accepted by the handler of [POST /generate]. *)
Lemma entry_points_differ :
  let env := sample_env 1000 (Text (js "Hi")) in
  let hello := payload (JsString (js "Hello")) in
  let long := payload (JsString (replicate (Z.to_nat 8001) 97%N)) in
  let loaded := server_module node_scope in
  (callable_verdict (run (generateWithGemini env hello signed_in) empty_store).1
   = Accepted
   /\ loaded.1 = Thrown (ReferenceError "z")
   /\ listening (application loaded.2) = false
   /\ client_gets loaded (run (generate env hello) empty_store) = None)
  /\ (callable_verdict
        (run (generateWithGemini env long signed_in) empty_store).1
      = Rejected invalid_argument
      /\ http_verdict (run (generate env long) empty_store).1 = Accepted).
Proof.
  intros env hello long loaded.
  destruct server_module_load as (Hthrown & Hstack & Hlisten).
  split; [split; [|split; [|split]]|split].
  - vm_compute. reflexivity.
  - exact Hthrown.
  - exact Hlisten.
  - apply client_gets_nothing.
  - vm_compute. reflexivity.
  - vm_compute. reflexivity.
Qed.

(** ** Empty answers of the Gemini service *)

(** C7 fails on [generateWithGemini]: when the Gemini service returns the
    empty text, the function returns it as a successful result, where
    [POST /generate] answers 500 (see [express_no_content]). *)
Theorem callable_returns_empty_text :
  let env := sample_env 1000 (Text (js "")) in
  let r := run (generateWithGemini env (payload (JsString (js "Hello")))
                  signed_in) empty_store in
  r.1 = Returns {| response := []; timestamp := toISOString 1000 |}
  /\ thrown_code r.1 <> Some internal.
Proof.
  intros env r. split; [reflexivity|]. vm_compute. discriminate.
Qed.

(** X1.  On the handler of [POST /generate] the property of C7 holds: a
    response with status 200 carries a text that is neither empty nor
    blank, and the instant it was made at; and a text of the Gemini
    service that is empty or blank is answered with status 500 and
    [No content was generated], after that one call and without a change
    of the store. *)
Lemma express_success_not_empty (env : Env) (received : Payload)
    (s : Firestore) :
  (forall res,
     (run (generate env received) s).1 = Returns res ->
     status res = 200 ->
     exists text,
       body res = JsonGenerated {| response := text;
                                   timestamp := toISOString (date_new env) |}
       /\ text <> []
       /\ JsString.trim text <> [])
  /\ (forall key p text,
        non_blank_string (apiKey received) = Some key ->
        non_blank_string (prompt received) = Some p ->
        gemini env (express_model key) p = Text text ->
        JsString.trim text = [] ->
        run (generate env received) s
        = (Returns {| status := 500;
                      body := JsonError (js "No content was generated")
                                        None |},
           {| store := s;
              trace := [EvGenerateContent (express_model key) p] |})).
Proof.
  split.
  - intros res.
    destruct (non_blank_string (apiKey received)) as [key|] eqn:Hkey.
    2: { rewrite express_key_required by done. by intros [= <-]. }
    destruct (non_blank_string (prompt received)) as [p|] eqn:Hp.
    2: { rewrite (express_prompt_required _ _ _ key) by done.
         by intros [= <-]. }
    destruct (gemini env (express_model key) p) as [text|m] eqn:Hup.
    + destruct (decide (JsString.trim text = [])) as [Hblank|Hblank].
      * rewrite (express_no_content _ _ _ key p text) by done.
        by intros [= <-].
      * rewrite (express_generated _ _ _ key p text) by done.
        intros [= <-] _. exists text. split; [done|]. split; [|done].
        intros ->. by rewrite trim_nil in Hblank.
    + rewrite (express_upstream_throws _ _ _ key p m) by done.
      unfold generate_catch.
      repeat match goal with
             | |- context [if ?b then ret _ else _] => destruct b
             end; by intros [= <-].
  - intros key p text Hkey Hp Hup Hblank.
    by apply (express_no_content _ _ _ key p text).
Qed.

Lemma express_success_not_empty_witness :
  let hello := payload (JsString (js "Hello")) in
  let res := {| status := 200;
                body := JsonGenerated
                          {| response := js "Hi";
                             timestamp := toISOString 1000 |} |} in
  (exists text,
     body res = JsonGenerated {| response := text;
                                 timestamp := toISOString 1000 |}
     /\ text <> []
     /\ JsString.trim text <> [])
  /\ run (generate (sample_env 1000 (Text (js "  "))) hello) empty_store
     = (Returns {| status := 500;
                   body := JsonError (js "No content was generated") None |},
        {| store := empty_store;
           trace := [EvGenerateContent (express_model (js "client-key"))
                       (js "Hello")] |}).
Proof.
  intros hello res. split.
  - apply (proj1 (express_success_not_empty (sample_env 1000 (Text (js "Hi")))
                    hello empty_store) res); reflexivity.
  - apply (proj2 (express_success_not_empty (sample_env 1000 (Text (js "  ")))
                    hello empty_store)
             (js "client-key") (js "Hello") (js "  ")); reflexivity.
Defined.

(** X2.  The first request of a user: with a valid prompt and an answer
    of the Gemini service, the result carries the text, the record of the
    user shows [count = 1], and the log holds the entry of the request. *)
Lemma first_request_counts_one (env : Env) (data : Payload)
    (context : CallableContext) (caller : AuthData) (p text : jsstring)
    (s : Firestore) :
  auth context = Some caller ->
  non_blank_string (prompt data) = Some p ->
  JsString.length p <= 8000 ->
  rateLimits s !! uid caller = None ->
  gemini env (callable_model env) p = Text text ->
  let r := run (generateWithGemini env data context) s in
  r.1 = Returns {| response := text;
                   timestamp := toISOString (date_new env) |}
  /\ rateLimits (store r.2) !! uid caller
     = Some {| count := 1; lastReset := date_now env |}
  /\ usage_logs (store r.2) !! autoId env
     = Some (usage_entry env (uid caller) p text).
Proof.
  intros Hauth Hp Hp8 Hnone Hup r. unfold r.
  rewrite (callable_generated _ _ _ _ caller p text); try done.
  - rewrite Hnone. simpl. split; [done|].
    split; apply lookup_insert_eq.
  - intros (d & Hd & _). congruence.
Qed.

Lemma first_request_counts_one_witness :
  let env := sample_env 1000 (Text (js "Hi")) in
  let r := run (generateWithGemini env (payload (JsString (js "Hello")))
                  signed_in) empty_store in
  r.1 = Returns {| response := js "Hi"; timestamp := toISOString 1000 |}
  /\ rateLimits (store r.2) !! uid alice
     = Some {| count := 1; lastReset := 1000 |}
  /\ usage_logs (store r.2) !! js "log-1"
     = Some (usage_entry env (uid alice) (js "Hello") (js "Hi")).
Proof.
  intros env r.
  apply (first_request_counts_one env (payload (JsString (js "Hello")))
           signed_in alice (js "Hello") (js "Hi") empty_store).
  - reflexivity.
  - reflexivity.
  - vm_compute. discriminate.
  - reflexivity.
  - reflexivity.
Defined.

(** ** The retention sweep *)

Section Sweep.

Variables (cutoff : Z) (n : nat) (logs : gmap jsstring UsageLog.t).

(** The query returns documents of the collection that satisfy its
    filter, *)
Lemma where_timestamp_lt_sound (id : jsstring) (e : UsageLog.t) :
  (id, e) ∈ where_timestamp_lt cutoff n logs ->
  logs !! id = Some e /\ UsageLog.timestamp e < cutoff.
Proof.
  unfold where_timestamp_lt. intros H.
  apply subseteq_take in H. rewrite merge_sort_Permutation in H.
  apply list_elem_of_filter in H as [Hold H].
  apply elem_of_map_to_list in H. done.
Qed.


Lemma id_leb_total (a b : jsstring) : id_leb a b = true \/ id_leb b a = true.
Proof.
  revert b. induction a as [|x a IH]; intros [|y b]; simpl; auto.
  destruct (N.lt_total x y) as [H | [-> | H]].
  - left. apply N.ltb_lt in H. by rewrite H.
  - rewrite N.ltb_irrefl, N.eqb_refl. simpl. apply IH.
  - right. apply N.ltb_lt in H. by rewrite H.
Qed.

#[local] Instance log_le_total : Total log_le.
Proof.
  intros [i d] [j e]. unfold log_le, log_leb. simpl.
  destruct (Z.lt_total (UsageLog.timestamp d) (UsageLog.timestamp e))
    as [H | [H | H]].
  - left. apply Z.ltb_lt in H. by rewrite H.
  - rewrite H, Z.ltb_irrefl, Z.eqb_refl. simpl.
    destruct (id_leb_total i j) as [-> | ->]; auto.
  - right. apply Z.ltb_lt in H. by rewrite H.
Qed.

Lemma Sorted_take {A} (R : relation A) (l : list A) (k : nat) :
  Sorted R l -> Sorted R (take k l).
Proof.
  intros H. revert k. induction H as [|x l Hl IH Hx]; intros [|k]; simpl;
    try constructor; auto.
  destruct Hx, k; simpl; by constructor.
Qed.

(** The query returns the oldest documents first. *)
Lemma where_timestamp_lt_sorted :
  Sorted log_le (where_timestamp_lt cutoff n logs).
Proof.
  unfold where_timestamp_lt. apply Sorted_take, Sorted_merge_sort, _.
Qed.

End Sweep.





(** The sweep at work: run at the end of the thirty-first day, it deletes
    the entry written at time 0 and keeps the other one. *)
Example sweep_deletes_old_entry :
  let env := sample_env (31 * msPerDay) (Text (js "Hi")) in
  let s' := store (run (cleanupLogs env) logged_store).2 in
  usage_logs s' !! js "log-a" = None
  /\ usage_logs s' !! js "log-b" = usage_logs logged_store !! js "log-b"
  /\ rateLimits s' = rateLimits logged_store.
Proof.
  intros env s'. split; [vm_compute; reflexivity|].
  split; [vm_compute; reflexivity|reflexivity].
Qed.

(** ** The HTTP function *)

(** C9, as amended.  For a POST request to [generateWithGeminiHttp] whose
    token verifies and whose prompt is a string that is not empty after
    trimming, the prompt is sent to the Gemini service whatever its length;
    the only operations performed are the verification of the token and the
    call of the service (no read or write of a rate-limit record, no log
    entry), and the store is left as it was. *)
Theorem http_function_forwards (env : Env) (received : Payload)
    (p : jsstring) (s : Firestore) :
  idTokenValid env (idToken received) = true ->
  prompt received = JsString p ->
  JsString.trim p <> [] ->
  let r := run (generateWithGeminiHttp env POST received) s in
  r.2 = {| store := s;
           trace := [EvVerifyIdToken (idToken received);
                     EvGenerateContent (http_model env) p] |}
  /\ (forall text,
        gemini env (http_model env) p = Text text ->
        r.1 = Returns
                {| status := 200;
                   body := JsonGenerated
                             {| response := text;
                                timestamp := toISOString (date_new env) |} |})
  /\ (forall m,
        gemini env (http_model env) p = Throws m ->
        r.1 = Returns {| status := 500;
                         body := JsonError (js "Internal server error")
                                           None |}).
Proof.
  intros Htoken Hprompt Hp r. unfold r, run, generateWithGeminiHttp,
    try_catch, generateContent, bind, emit, ret, throw. simpl.
  rewrite Htoken, Hprompt, (non_blank_string_intro p Hp). simpl.
  fold (http_model env).
  destruct (gemini env (http_model env) p) as [text|m]; simpl.
  - split; [done|]. split; [by intros ? [= ->]|by intros ? [=]].
  - split; [done|]. split; [by intros ? [=]|done].
Qed.

Lemma http_function_forwards_witness :
  let env := sample_env 1000 (Text (js "Hi")) in
  let long := replicate (Z.to_nat 8001) 97%N in
  (run (generateWithGeminiHttp env POST (payload (JsString long)))
       empty_store).1
  = Returns {| status := 200;
               body := JsonGenerated
                         {| response := js "Hi";
                            timestamp := toISOString 1000 |} |}.
Proof.
  intros env long.
  apply (http_function_forwards env (payload (JsString long)) long
           empty_store).
  - reflexivity.
  - reflexivity.
  - intros H%trim_length_0. vm_compute in H. discriminate.
  - reflexivity.
Defined.

(** C9, as stated, fails: a prompt made of a single space is a non-empty
    string, and it is answered with 400 without a call of the Gemini
    service. *)
Lemma blank_prompt_is_not_forwarded :
  let env := sample_env 1000 (Text (js "Hi")) in
  let r := run (generateWithGeminiHttp env POST (payload (JsString (js " "))))
               empty_store in
  JsString.length (js " ") = 1
  /\ idTokenValid env (idToken (payload (JsString (js " ")))) = true
  /\ r.1 = Returns {| status := 400;
                      body := JsonError (js "Invalid prompt") None |}
  /\ existsb is_generate_event (trace r.2) = false.
Proof.
  intros env r. split; [reflexivity|]. split; [reflexivity|].
  split; reflexivity.
Qed.

(** ** The health check *)



(** * Further properties of the handlers *)

(** ** [generateWithGemini]: every way through the function *)

Lemma catch_upstream_error (A : Type) (m : option jsstring) (w : World) :
  exists e, @generateWithGemini_catch A (Error m) w = (Thrown e, w)
            /\ e ∈ upstream_errors.
Proof.
  unfold generateWithGemini_catch, upstream_errors. simpl.
  repeat (match goal with |- context [if ?b then _ else _] => destruct b end);
    eexists; (split; [reflexivity|]); by repeat constructor.
Qed.

(** Every run of [generateWithGemini] is one of the six cases. *)
Lemma callable_run (env : Env) (data : Payload) (context : CallableContext)
    (s : Firestore) :
  CallableRun env data context s (run (generateWithGemini env data context) s).
Proof.
  destruct (auth context) as [caller|] eqn:Hauth.
  2: { rewrite callable_unauthenticated by done. by constructor. }
  destruct (non_blank_string (prompt data)) as [p|] eqn:Hp.
  2: { rewrite (callable_prompt_required _ _ _ _ caller) by done.
       by econstructor. }
  destruct (Z.lt_ge_cases 8000 (JsString.length p)) as [Hlong|Hp8].
  { rewrite (callable_prompt_too_long _ _ _ _ caller p) by done.
    by econstructor. }
  destruct (over_limit_decide (date_now env) (rateLimits s !! uid caller))
    as [Hl|Hl].
  { rewrite (callable_over_limit _ _ _ _ caller p) by done.
    by econstructor. }
  destruct (gemini env (callable_model env) p) as [text|m] eqn:Hup.
  - rewrite (callable_generated _ _ _ _ caller p text) by done.
    by apply (RunGenerated env data context s caller p text).
  - rewrite (callable_upstream_throws _ _ _ _ caller p m) by done.
    destruct (catch_upstream_error GenerationResult m
      {| store := s;
         trace := [EvRateLimitGet (uid caller);
                   EvGenerateContent (callable_model env) p] |})
      as (e & -> & He).
    by apply (RunUpstreamFailed env data context s caller p m e).
Qed.

(** X3.  Whatever the request and the answer of the Gemini service are,
    an error thrown by [generateWithGemini] is one of eight fixed
    [HttpsError]s: the message of an upstream failure is never passed on to
    the caller. *)
Theorem callable_throws_fixed_errors (env : Env) (data : Payload)
    (context : CallableContext) (s : Firestore) (e : JsError) :
  (run (generateWithGemini env data context) s).1 = Thrown e ->
  e ∈ callable_errors.
Proof.
  intros H.
  destruct (callable_run env data context s)
    as [| | | |caller p m e' ? ? ? ? ? He|]; simpl in H;
    try discriminate; injection H; intros <-; unfold callable_errors.
  1-4: by repeat constructor.
  unfold upstream_errors in He. rewrite !elem_of_cons, elem_of_nil in He.
  destruct He as [-> | [-> | [-> | [-> | []]]]]; by repeat constructor.
Qed.

Lemma callable_throws_fixed_errors_witness :
  HttpsError internal (js "Failed to generate content.") ∈ callable_errors.
Proof.
  apply (callable_throws_fixed_errors
           (sample_env 1000 (Throws (Some (js "secret detail at 10.0.0.7"))))
           (payload (JsString (js "Hello"))) signed_in empty_store).
  reflexivity.
Defined.

(** X4.  A request that [generateWithGemini] refuses at one of its checks
    (caller not signed in, prompt missing or blank, prompt too long, caller
    over the limit), or whose generation fails, ends in an error without a
    write to the store being attempted: the trace holds no [set] and no
    [add], and the store is as it was. *)
Theorem refused_request_attempts_no_write (env : Env) (data : Payload)
    (context : CallableContext) (s : Firestore) :
  refused env data context s ->
  let r := run (generateWithGemini env data context) s in
  (exists e, r.1 = Thrown e)
  /\ store r.2 = s
  /\ existsb is_rate_limit_write (trace r.2) = false
  /\ existsb is_log_write (trace r.2) = false.
Proof.
  intros Hrefused r. unfold r.
  destruct (callable_run env data context s)
    as [| | | | |caller p text Hauth Hp Hp8 Hl Hup u doc entry].
  1-5: by (split; [eexists|]).
  exfalso.
  destruct Hrefused
    as [H | [H | [(q & Hq & Hlong) | [(c & Hc & Hover) | (q & m & Hq & Hm)]]]].
  - congruence.
  - congruence.
  - assert (q = p) as -> by congruence. lia.
  - assert (c = caller) as -> by congruence. done.
  - assert (q = p) as -> by congruence. congruence.
Qed.

Lemma refused_request_attempts_no_write_witness :
  let env := sample_env 1000 (Throws (Some (js "blocked: SAFETY"))) in
  let r := run (generateWithGemini env (payload (JsString (js "Hello")))
                  signed_in) empty_store in
  (exists e, r.1 = Thrown e)
  /\ store r.2 = empty_store
  /\ existsb is_rate_limit_write (trace r.2) = false
  /\ existsb is_log_write (trace r.2) = false.
Proof.
  intros env r.
  apply (refused_request_attempts_no_write env
           (payload (JsString (js "Hello"))) signed_in empty_store).
  do 4 right. exists (js "Hello"), (Some (js "blocked: SAFETY")).
  split; reflexivity.
Defined.

(** X5.  A request touches at most two documents: the rate-limit record of
    its caller and the log entry with the id picked by [add].  The records
    of all other users and all other log entries are left as they were. *)
Theorem callable_frame (env : Env) (data : Payload)
    (context : CallableContext) (s : Firestore) :
  let s' := store (run (generateWithGemini env data context) s).2 in
  (forall u, auth context <> Some {| uid := u |} ->
             rateLimits s' !! u = rateLimits s !! u)
  /\ (forall id, id <> autoId env -> usage_logs s' !! id = usage_logs s !! id).
Proof.
  intros s'. unfold s'.
  destruct (callable_run env data context s) as
    [| | | | |caller p text Hauth]; try done.
  simpl. split.
  - intros v Hv. apply lookup_insert_ne. intros <-. apply Hv.
    rewrite Hauth. by destruct caller.
  - intros id Hid. by apply lookup_insert_ne.
Qed.

(** ** Invariants of the store *)

(** A run of [generateWithGemini] keeps every stored count between 1 and
    20, and every log entry well formed. *)
Lemma callable_keeps_invariants (env : Env) (data : Payload)
    (context : CallableContext) (s : Firestore) :
  let s' := store (run (generateWithGemini env data context) s).2 in
  ((forall u d, rateLimits s !! u = Some d -> 1 <= count d <= 20) ->
   forall u d, rateLimits s' !! u = Some d -> 1 <= count d <= 20)
  /\ ((forall id e, usage_logs s !! id = Some e -> well_formed_log e) ->
      forall id e, usage_logs s' !! id = Some e -> well_formed_log e).
Proof.
  intros s'. unfold s'.
  destruct (callable_run env data context s) as
    [| | | | |caller p text Hauth Hp Hp8 Hl Hup u0 doc0 entry0]; try done.
  subst u0 doc0 entry0. simpl. split.
  - intros Hinv v d Hd.
    destruct (decide (uid caller = v)) as [<-|Hne].
    + rewrite lookup_insert_eq in Hd. injection Hd as <-.
      unfold next_rateLimit.
      destruct (rateLimits s !! uid caller) as [d0|] eqn:Hd0; simpl; [|lia].
      specialize (Hinv _ _ Hd0).
      destruct (date_now env - lastReset d0 <? oneHour) eqn:Hw; simpl; [|lia].
      assert (count d0 < 20); [|lia].
      apply Z.nle_gt. intros Hc. apply Hl. exists d0. unfold in_window.
      repeat split; [lia|done].
    + rewrite lookup_insert_ne in Hd by done. eauto.
  - intros Hinv id e He.
    destruct (decide (autoId env = id)) as [<-|Hne].
    + rewrite lookup_insert_eq in He. injection He as <-.
      destruct (non_blank_string_Some _ _ Hp) as [_ Hnb].
      unfold well_formed_log, usage_entry, JsString.length. simpl.
      destruct p; [by rewrite trim_nil in Hnb|].
      unfold JsString.length in Hp8. simpl in *. repeat split; lia.
    + rewrite lookup_insert_ne in He by done. eauto.
Qed.

(** X6.  However many requests are served, and whoever sends them, the
    count of every rate-limit record stays between 1 and 20. *)
Theorem counts_stay_within_limit (calls : list Call) (s : Firestore) :
  (forall u d, rateLimits s !! u = Some d -> 1 <= count d <= 20) ->
  forall u d, rateLimits (serve calls s).2 !! u = Some d -> 1 <= count d <= 20.
Proof.
  revert s. induction calls as [|c calls IH]; intros s Hinv; simpl; [done|].
  apply IH. unfold handle. by apply callable_keeps_invariants.
Qed.

Lemma counts_stay_within_limit_witness :
  let c := {| call_env := sample_env 1000 (Text (js "Hi"));
              call_data := payload (JsString (js "Hello"));
              call_context := signed_in |} in
  let d := {| count := 20; lastReset := 1000 |} in
  rateLimits (serve (replicate 25 c) empty_store).2 !! uid alice = Some d
  /\ 1 <= count d <= 20.
Proof.
  intros c d.
  assert (rateLimits (serve (replicate 25 c) empty_store).2 !! uid alice
          = Some d) as H by (vm_compute; reflexivity).
  split; [exact H|].
  apply (counts_stay_within_limit (replicate 25 c) empty_store)
    with (u := uid alice); [|exact H].
  intros u d' Hd'. vm_compute in Hd'. discriminate.
Defined.

(** X7.  Every log entry that [generateWithGemini] writes records a prompt
    length between 1 and 8000, a response length that is not negative and
    the model [gemini-pro]: a log of such entries stays one, however many
    requests are served. *)
Theorem usage_logs_stay_well_formed (calls : list Call) (s : Firestore) :
  (forall id e, usage_logs s !! id = Some e -> well_formed_log e) ->
  forall id e, usage_logs (serve calls s).2 !! id = Some e -> well_formed_log e.
Proof.
  revert s. induction calls as [|c calls IH]; intros s Hinv; simpl; [done|].
  apply IH. unfold handle. by apply callable_keeps_invariants.
Qed.

Lemma usage_logs_stay_well_formed_witness :
  let env := sample_env 1000 (Text (js "Hi")) in
  let c := {| call_env := env;
              call_data := payload (JsString (js " Hello "));
              call_context := signed_in |} in
  let e := usage_entry env (uid alice) (js " Hello ") (js "Hi") in
  usage_logs (serve [c; c] empty_store).2 !! js "log-1" = Some e
  /\ well_formed_log e.
Proof.
  intros env c e.
  assert (usage_logs (serve [c; c] empty_store).2 !! js "log-1" = Some e)
    as H by (vm_compute; reflexivity).
  split; [exact H|].
  apply (usage_logs_stay_well_formed [c; c] empty_store) with (id := js "log-1");
    [|exact H].
  intros id e' He'. vm_compute in He'. discriminate.
Defined.

(** ** The guarantee of the rate limiter *)

Section Quota.

Variable caller : AuthData.

Lemma successes_bound (calls : list Call) :
  forall (s : Firestore) (k : Z),
    Forall (fun c => auth (call_context c) = Some caller) calls ->
    (forall c c', c ∈ calls -> c' ∈ calls ->
                  date_now (call_env c) - date_now (call_env c') < oneHour) ->
    0 <= k <= 20 ->
    counted caller k calls s ->
    Z.of_nat (successes (serve calls s).1) <= 20 - k.
Proof.
  induction calls as [|c calls IH]; intros s k Hcaller Hclose Hk Hrec.
  - unfold successes. simpl. lia.
  - apply Forall_cons in Hcaller as [Hc Hcaller].
    assert (forall c1 c2, c1 ∈ calls -> c2 ∈ calls ->
              date_now (call_env c1) - date_now (call_env c2) < oneHour)
      as Hclose' by (intros; apply Hclose; by right).
    assert (counted caller k calls s) as Hrec'.
    { destruct Hrec as [?|(t & Ht & Hwin)]; [by left|right].
      exists t. split; [done|]. intros; apply Hwin; by right. }
    simpl. unfold handle.
    destruct (callable_run (call_env c) (call_data c) (call_context c) s) as
      [| | | | |caller' p text Hauth Hp Hp8 Hl Hup u0 doc0 entry0];
      unfold successes in *; simpl; try (by apply IH).
    subst u0 doc0 entry0.
    assert (caller' = caller) as -> by congruence.
    destruct Hrec as [[Hnone ->]|(t & Ht & Hwin)].
    + rewrite Hnone. simpl.
      specialize (IH {| rateLimits := <[uid caller := {| count := 1;
                          lastReset := date_now (call_env c) |}]> (rateLimits s);
                        usage_logs := <[autoId (call_env c) :=
                          usage_entry (call_env c) (uid caller) p text]> (usage_logs s) |}
                     1 Hcaller Hclose' ltac:(lia)).
      unfold successes in IH. simpl in IH.
      assert (20 - 1 = 19) as Heq by lia. rewrite Heq in IH.
      cut (Z.of_nat (length (List.filter
             (fun r : Completion GenerationResult * list Event => succeeded r.1)
             (serve calls
                {| rateLimits := <[uid caller := {| count := 1;
                     lastReset := date_now (call_env c) |}]> (rateLimits s);
                   usage_logs := <[autoId (call_env c) :=
                     usage_entry (call_env c) (uid caller) p text]> (usage_logs s) |}).1))
           <= 19); [lia|].
      apply IH. right. exists (date_now (call_env c)).
      split; [apply lookup_insert_eq|].
      intros c' Hc'. apply Hclose; [by right|by left].
    + assert (date_now (call_env c) - t < oneHour) as Hw
        by (apply Hwin; by left).
      assert (k < 20) as Hk20.
      { apply Z.nle_gt. intros Hge. apply Hl. rewrite Ht.
        eexists. split; [done|]. by split. }
      rewrite Ht. unfold next_rateLimit. simpl.
      replace (date_now (call_env c) - t <? oneHour) with true by lia.
      specialize (IH {| rateLimits := <[uid caller := {| count := k + 1;
                          lastReset := t |}]> (rateLimits s);
                        usage_logs := <[autoId (call_env c) :=
                          usage_entry (call_env c) (uid caller) p text]> (usage_logs s) |}
                     (k + 1) Hcaller Hclose' ltac:(lia)).
      unfold successes in IH. simpl in IH.
      cut (Z.of_nat (length (List.filter
             (fun r : Completion GenerationResult * list Event => succeeded r.1)
             (serve calls
                {| rateLimits := <[uid caller := {| count := k + 1;
                     lastReset := t |}]> (rateLimits s);
                   usage_logs := <[autoId (call_env c) :=
                     usage_entry (call_env c) (uid caller) p text]> (usage_logs s) |}).1))
           <= 20 - (k + 1)); [lia|].
      apply IH. right. exists t. split; [apply lookup_insert_eq|].
      intros c' Hc'. apply Hwin. by right.
Qed.

End Quota.

(** X8.  Requests that a user without a record sends one after another
    within less than an hour: at most twenty of them return a result,
    whatever their payloads and the answers of the Gemini service are. *)
Theorem at_most_twenty_successes (caller : AuthData) (calls : list Call)
    (s : Firestore) :
  rateLimits s !! uid caller = None ->
  Forall (fun c => auth (call_context c) = Some caller) calls ->
  (forall c c', c ∈ calls -> c' ∈ calls ->
                date_now (call_env c) - date_now (call_env c') < oneHour) ->
  (successes (serve calls s).1 <= 20)%nat.
Proof.
  intros Hnone Hcaller Hclose.
  pose proof (successes_bound caller calls s 0 Hcaller Hclose ltac:(lia))
    as H.
  cut (Z.of_nat (successes (serve calls s).1) <= 20 - 0); [lia|].
  apply H. by left.
Qed.

Lemma at_most_twenty_successes_witness :
  let c := {| call_env := sample_env 1000 (Text (js "Hi"));
              call_data := payload (JsString (js "Hello"));
              call_context := signed_in |} in
  length (serve (replicate 25 c) empty_store).1 = 25%nat
  /\ (successes (serve (replicate 25 c) empty_store).1 <= 20)%nat.
Proof.
  intros c. split; [reflexivity|].
  apply (at_most_twenty_successes alice (replicate 25 c) empty_store).
  - reflexivity.
  - by apply Forall_replicate.
  - intros c1 c2 [-> _]%elem_of_replicate [-> _]%elem_of_replicate.
    vm_compute. reflexivity.
Defined.

(** ** [generateWithGeminiHttp]: what it answers and what it touches *)

(** X9.  [generateWithGeminiHttp] always answers (it never throws), with
    one of the statuses 200, 204, 400, 401, 405 and 500, and it leaves the
    store as it was, whatever the method, the body and the answer of the
    Gemini service are. *)
Theorem http_function_answers (env : Env) (method : Method)
    (received : Payload) (s : Firestore) :
  exists res,
    (run (generateWithGeminiHttp env method received) s).1 = Returns res
    /\ status res ∈ [200; 204; 400; 401; 405; 500]
    /\ store (run (generateWithGeminiHttp env method received) s).2 = s.
Proof.
  unfold run, generateWithGeminiHttp, try_catch, generateContent, bind, emit,
    ret, throw.
  destruct method; simpl;
    try (eexists; split; [reflexivity|]; split; [by repeat constructor|done]).
  destruct (idTokenValid env (idToken received)); simpl.
  - destruct (non_blank_string (prompt received)) as [p|]; simpl.
    + destruct (gemini env _ p); simpl;
        eexists; (split; [reflexivity|]); (split; [by repeat constructor|done]).
    + eexists; split; [reflexivity|]. split; [by repeat constructor|done].
  - eexists; split; [reflexivity|]. split; [by repeat constructor|done].
Qed.

(** X10.  [generateWithGeminiHttp] calls the Gemini service only for a
    POST request whose token verifies and whose prompt is a string that is
    not blank; the verification of the token comes first, and the prompt
    sent is the one received, untrimmed. *)
Theorem http_function_calls_upstream_only_when_verified (env : Env)
    (method : Method) (received : Payload) (s : Firestore) :
  contacts_upstream
    (trace (run (generateWithGeminiHttp env method received) s).2) ->
  method = POST
  /\ idTokenValid env (idToken received) = true
  /\ exists p,
       prompt received = JsString p
       /\ JsString.trim p <> []
       /\ trace (run (generateWithGeminiHttp env method received) s).2
          = [EvVerifyIdToken (idToken received);
             EvGenerateContent (http_model env) p].
Proof.
  unfold contacts_upstream, run, generateWithGeminiHttp, try_catch,
    generateContent, bind, emit, ret, throw.
  destruct method; simpl; try discriminate.
  destruct (idTokenValid env (idToken received)); simpl; [|discriminate].
  destruct (non_blank_string (prompt received)) as [p|] eqn:Hp; simpl;
    [|discriminate].
  destruct (non_blank_string_Some _ _ Hp) as [Hv Hnb].
  fold (http_model env).
  destruct (gemini env (http_model env) p); simpl; intros _;
    (split; [done|]); (split; [done|]); by exists p.
Qed.

Lemma http_function_calls_upstream_only_when_verified_witness :
  let env := sample_env 1000 (Text (js "Hi")) in
  exists p,
    prompt (payload (JsString (js " Hello "))) = JsString p
    /\ JsString.trim p <> []
    /\ trace (run (generateWithGeminiHttp env POST
                     (payload (JsString (js " Hello ")))) empty_store).2
       = [EvVerifyIdToken (JsString (js "token"));
          EvGenerateContent (http_model env) p].
Proof.
  intros env.
  apply (http_function_calls_upstream_only_when_verified env POST
           (payload (JsString (js " Hello "))) empty_store).
  reflexivity.
Defined.

(** ** [POST /generate]: what it reveals and when it calls the service *)

(** X11.  Unless the server runs in development mode, the body of an
    answer of [POST /generate] is either the generated result, with status
    200, or one of seven fixed error bodies: the message of an upstream
    failure is not revealed to the client. *)
Theorem generate_hides_upstream_message (env : Env) (received : Payload)
    (s : Firestore) :
  NODE_ENV env <> Some (js "development") ->
  exists res,
    (run (generate env received) s).1 = Returns res
    /\ ((exists result, res = {| status := 200; body := JsonGenerated result |})
        \/ body res ∈ generate_error_bodies).
Proof.
  intros Hprod.
  destruct (non_blank_string (apiKey received)) as [key|] eqn:Hkey.
  2: { rewrite express_key_required by done. eexists. split; [done|].
       right. by repeat constructor. }
  destruct (non_blank_string (prompt received)) as [p|] eqn:Hp.
  2: { rewrite (express_prompt_required _ _ _ key) by done.
       eexists. split; [done|]. right. by repeat constructor. }
  destruct (gemini env (express_model key) p) as [text|m] eqn:Hup.
  - destruct (decide (JsString.trim text = [])) as [Hblank|Hblank].
    + rewrite (express_no_content _ _ _ key p text) by done.
      eexists. split; [done|]. right. by repeat constructor.
    + rewrite (express_generated _ _ _ key p text) by done.
      eexists. split; [done|]. left. by eexists.
  - rewrite (express_upstream_throws _ _ _ key p m) by done.
    unfold generate_catch.
    rewrite (bool_decide_eq_false_2 _ Hprod).
    repeat match goal with
           | |- context [if ?b then ret _ else _] => destruct b
           end; (eexists; split; [reflexivity|]; right; by repeat constructor).
Qed.

Lemma generate_hides_upstream_message_witness :
  let env := sample_env 1000 (Throws (Some (js "ECONNRESET 10.0.0.7:443"))) in
  exists res,
    (run (generate env (payload (JsString (js "Hello"))) ) empty_store).1
    = Returns res
    /\ ((exists result, res = {| status := 200; body := JsonGenerated result |})
        \/ body res ∈ generate_error_bodies).
Proof.
  intros env.
  apply (generate_hides_upstream_message env (payload (JsString (js "Hello")))
           empty_store).
  vm_compute. discriminate.
Defined.

(** X12.  [POST /generate] calls the Gemini service only when the API key
    and the prompt received are both strings that are not blank, and then
    once, with that key and that prompt as they were received; it never
    reads or writes the store. *)
Theorem generate_calls_upstream_with_client_key (env : Env)
    (received : Payload) (s : Firestore) :
  store (run (generate env received) s).2 = s
  /\ (contacts_upstream (trace (run (generate env received) s).2) ->
      exists key p,
        apiKey received = JsString key /\ JsString.trim key <> []
        /\ prompt received = JsString p /\ JsString.trim p <> []
        /\ trace (run (generate env received) s).2
           = [EvGenerateContent (express_model key) p]).
Proof.
  destruct (non_blank_string (apiKey received)) as [key|] eqn:Hkey.
  2: { by rewrite express_key_required by done. }
  destruct (non_blank_string (prompt received)) as [p|] eqn:Hp.
  2: { by rewrite (express_prompt_required _ _ _ key) by done. }
  destruct (non_blank_string_Some _ _ Hkey) as [Hk Hknb].
  destruct (non_blank_string_Some _ _ Hp) as [Hv Hpnb].
  assert (trace (run (generate env received) s).2
          = [EvGenerateContent (express_model key) p]
          /\ store (run (generate env received) s).2 = s) as [Ht Hs].
  { destruct (gemini env (express_model key) p) as [text|m] eqn:Hup.
    - destruct (decide (JsString.trim text = [])) as [Hblank|Hblank].
      + by rewrite (express_no_content _ _ _ key p text) by done.
      + by rewrite (express_generated _ _ _ key p text) by done.
    - rewrite (express_upstream_throws _ _ _ key p m) by done.
      unfold generate_catch.
      repeat match goal with
             | |- context [if ?b then ret _ else _] => destruct b
             end; done. }
  split; [done|]. intros _. by exists key, p.
Qed.

(** ** The limiter in front of the routes *)

Section Limiter.

Variables (opts : LimiterOptions) (ip : jsstring).

Lemma limiter_answers_cons (t : Z) (times : list Z)
    (hits : gmap jsstring ClientHits) :
  limiter_answers opts ip (t :: times) hits
  = (rateLimit opts t ip hits).2
    :: limiter_answers opts ip times (rateLimit opts t ip hits).1.
Proof. reflexivity. Qed.

(** While the window of a client runs, every request adds one to its
    counter. *)
Lemma limiter_answers_counted (times : list Z) :
  forall (hits : gmap jsstring ClientHits) (n r : Z) (k : nat) (t : Z),
    hits !! ip = Some {| totalHits := n; resetTime := r |} ->
    Forall (fun t => t < r) times ->
    times !! k = Some t ->
    limiter_answers opts ip times hits !! k
    = Some (limiter_verdict opts (n + 1 + Z.of_nat k)).
Proof.
  induction times as [|t0 times IH]; intros hits n r k t Hhits Hwin Hk;
    [done|].
  apply Forall_cons in Hwin as [Ht0 Hwin].
  assert (rateLimit opts t0 ip hits
          = (<[ip := {| totalHits := n + 1; resetTime := r |}]> hits,
             limiter_verdict opts (n + 1))) as Hstep.
  { unfold rateLimit, increment. rewrite Hhits. simpl.
    by replace (t0 <? r) with true by lia. }
  rewrite limiter_answers_cons, Hstep. simpl. destruct k as [|k]; simpl.
  - do 2 f_equal. lia.
  - simpl in Hk.
    rewrite (IH _ (n + 1) r k t); [do 2 f_equal; lia| |done..].
    apply lookup_insert_eq.
Qed.

End Limiter.

(** X17.  A client whose counter is absent or has run out sends requests,
    all before the end of the window that the first of them opens: the
    limiter lets the first [max] of them through and answers every later
    one with status 429 and the configured message. *)
Theorem limiter_quota (opts : LimiterOptions) (ip : jsstring) (t1 : Z)
    (rest : list Z) (hits : gmap jsstring ClientHits) (k : nat) :
  (hits !! ip = None \/ exists h, hits !! ip = Some h /\ resetTime h <= t1) ->
  Forall (fun t => t < t1 + windowMs opts) rest ->
  (k < length (t1 :: rest))%nat ->
  limiter_answers opts ip (t1 :: rest) hits !! k
  = Some (if bool_decide (Z.of_nat k < max opts)
          then None
          else Some {| status := 429; body := Send (message opts) |}).
Proof.
  intros Hstart Hwin Hk.
  assert (rateLimit opts t1 ip hits
          = (<[ip := {| totalHits := 1; resetTime := t1 + windowMs opts |}]> hits,
             limiter_verdict opts 1)) as Hfirst.
  { unfold rateLimit, increment.
    destruct Hstart as [-> | (h & -> & Hh)]; [done|].
    by replace (t1 <? resetTime h) with false by lia. }
  assert (forall j, limiter_verdict opts (1 + Z.of_nat j)
                    = if bool_decide (Z.of_nat j < max opts)
                      then None
                      else Some {| status := 429;
                                   body := Send (message opts) |}) as Hv.
  { intros j. unfold limiter_verdict. case_bool_decide.
    - by replace (max opts <? 1 + Z.of_nat j) with false by lia.
    - by replace (max opts <? 1 + Z.of_nat j) with true by lia. }
  rewrite limiter_answers_cons, Hfirst. simpl. destruct k as [|k]; simpl.
  - by rewrite <- (Hv 0%nat).
  - simpl in Hk. destruct (lookup_lt_is_Some_2 rest k ltac:(lia)) as [t Ht].
    rewrite (limiter_answers_counted opts ip rest _ 1 (t1 + windowMs opts) k t);
      [|apply lookup_insert_eq|done|done].
    rewrite <- Hv. do 2 f_equal. lia.
Qed.

Lemma limiter_quota_witness :
  limiter_answers limiterOptions (js "203.0.113.7") (replicate 101 1000) ∅
    !! 100%nat
  = Some (Some {| status := 429; body := Send (message limiterOptions) |}).
Proof.
  apply (limiter_quota limiterOptions (js "203.0.113.7") 1000
           (replicate 100 1000) ∅ 100).
  - by left.
  - apply Forall_replicate. vm_compute. reflexivity.
  - simpl. lia.
Defined.

(** ** The retention sweep, run after run *)

Lemma sweep_eq (env : Env) (s : Firestore) :
  sweep env s
  = {| rateLimits := rateLimits s;
       usage_logs :=
         foldr delete (usage_logs s)
           ((where_timestamp_lt (thirtyDaysAgo env) 500 (usage_logs s)).*1) |}.
Proof. reflexivity. Qed.

(** Deleting distinct ids that are all present removes as many documents
    as there are ids. *)
Lemma size_foldr_delete_exact {A} (m : gmap jsstring A) (ids : list jsstring) :
  NoDup ids ->
  (forall i, i ∈ ids -> is_Some (m !! i)) ->
  (size (foldr delete m ids) + length ids = size m)%nat.
Proof.
  induction 1 as [|i ids Hi Hdup IH]; intros Hin; simpl; [lia|].
  assert (is_Some (foldr delete m ids !! i)) as Hsome.
  { rewrite lookup_foldr_delete_not_elem_of by done. apply Hin. by left. }
  rewrite map_size_delete_Some by done.
  pose proof (map_size_ne_0_lookup_2 _ _ Hsome).
  specialize (IH ltac:(intros; apply Hin; by right)). lia.
Qed.

Section SweepCount.

Variables (cutoff : Z) (logs : gmap jsstring UsageLog.t).

Let old : gmap jsstring UsageLog.t :=
  filter (fun d => UsageLog.timestamp d.2 < cutoff) logs.

Lemma old_list_NoDup :
  NoDup ((filter (fun d : jsstring * UsageLog.t =>
                    UsageLog.timestamp d.2 < cutoff) (map_to_list logs)).*1).
Proof.
  eapply sublist_NoDup; [apply (NoDup_fst_map_to_list logs)|].
  apply fmap_sublist, sublist_filter.
Qed.

Lemma old_list_length :
  length (filter (fun d : jsstring * UsageLog.t =>
                    UsageLog.timestamp d.2 < cutoff) (map_to_list logs))
  = size old.
Proof.
  unfold old. rewrite map_filter_alt, <- length_map_to_list.
  symmetry. apply Permutation_length, map_to_list_to_map, old_list_NoDup.
Qed.

Lemma found_NoDup (n : nat) : NoDup ((where_timestamp_lt cutoff n logs).*1).
Proof.
  unfold where_timestamp_lt. rewrite fmap_take.
  eapply sublist_NoDup; [|apply sublist_take].
  rewrite merge_sort_Permutation. apply old_list_NoDup.
Qed.

Lemma found_length (n : nat) :
  length (where_timestamp_lt cutoff n logs) = Nat.min n (size old).
Proof.
  unfold where_timestamp_lt.
  by rewrite length_take, merge_sort_Permutation, old_list_length.
Qed.

Lemma found_old (n : nat) (i : jsstring) :
  i ∈ (where_timestamp_lt cutoff n logs).*1 -> is_Some (old !! i).
Proof.
  intros ([i' e] & -> & Hin)%list_elem_of_fmap.
  apply where_timestamp_lt_sound in Hin as [Hin Hold].
  exists e. by apply map_lookup_filter_Some.
Qed.

End SweepCount.

Lemma old_logs_sweep (env : Env) (s : Firestore) :
  old_logs env (sweep env s)
  = foldr delete (old_logs env s)
      ((where_timestamp_lt (thirtyDaysAgo env) 500 (usage_logs s)).*1).
Proof.
  unfold old_logs. rewrite sweep_eq. simpl.
  induction ((where_timestamp_lt (thirtyDaysAgo env) 500 (usage_logs s)).*1)
    as [|i ids IH]; simpl; [done|].
  by rewrite map_filter_delete, IH.
Qed.

Lemma sweep_size_logs (env : Env) (s : Firestore) :
  (size (usage_logs (sweep env s)) + Nat.min 500 (size (old_logs env s))
   = size (usage_logs s))%nat.
Proof.
  unfold old_logs.
  rewrite <- (found_length (thirtyDaysAgo env) (usage_logs s) 500).
  rewrite <- (length_fmap fst), sweep_eq. simpl.
  apply size_foldr_delete_exact; [apply found_NoDup|].
  intros i Hi. destruct (found_old _ _ _ _ Hi) as [e He].
  apply map_lookup_filter_Some in He as [He _]. by exists e.
Qed.

Lemma sweep_size_old (env : Env) (s : Firestore) :
  (size (old_logs env (sweep env s)) + Nat.min 500 (size (old_logs env s))
   = size (old_logs env s))%nat.
Proof.
  rewrite old_logs_sweep. unfold old_logs at 2.
  rewrite <- (found_length (thirtyDaysAgo env) (usage_logs s) 500).
  rewrite <- (length_fmap fst).
  apply size_foldr_delete_exact; [apply found_NoDup|].
  intros i Hi. by apply (found_old _ _ 500).
Qed.

(** X18.  A run of [cleanupLogs] deletes exactly 500 log entries when more
    than 500 are older than thirty days, and all of those otherwise; the
    entries older than thirty days that are left are as many fewer. *)
Theorem sweep_deletes_as_many_as_allowed (env : Env) (s : Firestore) :
  let deleted := Nat.min 500 (size (old_logs env s)) in
  (size (usage_logs (sweep env s)) + deleted = size (usage_logs s))%nat
  /\ (size (old_logs env (sweep env s)) + deleted
      = size (old_logs env s))%nat.
Proof.
  intros deleted. split; [apply sweep_size_logs|apply sweep_size_old].
Qed.

(** What a run keeps and what it can delete. *)
Lemma sweep_lookup (env : Env) (s : Firestore) (id : jsstring)
    (e : UsageLog.t) :
  (usage_logs (sweep env s) !! id = Some e -> usage_logs s !! id = Some e)
  /\ (usage_logs s !! id = Some e -> ~ older_than_30_days env e ->
      usage_logs (sweep env s) !! id = Some e).
Proof.
  rewrite sweep_eq. simpl. split.
  - by intros [_ H]%lookup_foldr_delete_Some.
  - intros He Hnew. apply lookup_foldr_delete_Some. split; [|done].
    intros ([id' e'] & -> & Hin)%list_elem_of_fmap.
    apply where_timestamp_lt_sound in Hin as [Hin Hold]. simpl in He.
    assert (e' = e) as -> by congruence. by apply Hnew.
Qed.

Lemma clean_iff_no_old_logs (env : Env) (s : Firestore) :
  clean env s <-> size (old_logs env s) = 0%nat.
Proof.
  rewrite map_size_empty_iff. unfold old_logs. rewrite map_empty_filter.
  unfold clean, map_Forall, older_than_30_days, thirtyDaysAgo. done.
Qed.

Lemma sweeps_old_logs (env : Env) (k : nat) :
  forall s, (size (old_logs env (Nat.iter k (sweep env) s))
             = size (old_logs env s) - 500 * k)%nat.
Proof.
  induction k as [|k IH]; intros s; simpl; [lia|].
  pose proof (sweep_size_old env (Nat.iter k (sweep env) s)) as H.
  rewrite IH in H. lia.
Qed.

Lemma sweeps_rateLimits (env : Env) (k : nat) (s : Firestore) :
  rateLimits (Nat.iter k (sweep env) s) = rateLimits s.
Proof. induction k as [|k IH]; [done|]. rewrite <- IH. reflexivity. Qed.

Lemma sweeps_lookup (env : Env) (k : nat) (s : Firestore) (id : jsstring)
    (e : UsageLog.t) :
  (usage_logs (Nat.iter k (sweep env) s) !! id = Some e ->
   usage_logs s !! id = Some e)
  /\ (usage_logs s !! id = Some e -> ~ older_than_30_days env e ->
      usage_logs (Nat.iter k (sweep env) s) !! id = Some e).
Proof.
  induction k as [|k [IH1 IH2]]; [done|].
  destruct (sweep_lookup env (Nat.iter k (sweep env) s) id e) as [H1 H2].
  split; intros; [apply IH1, H1|apply H2; auto]; done.
Qed.

(** X19.  Runs of [cleanupLogs] one after another, as many as the number
    of entries older than thirty days asks for at 500 a run, leave a store
    without any such entry: the log then holds exactly the entries that are
    not older than thirty days, unchanged, and the rate-limit records are
    as they were. *)
Theorem sweeps_reach_clean (env : Env) (s : Firestore) (k : nat) :
  (size (old_logs env s) <= 500 * k)%nat ->
  let s' := Nat.iter k (sweep env) s in
  clean env s'
  /\ rateLimits s' = rateLimits s
  /\ forall id e,
       usage_logs s' !! id = Some e
       <-> usage_logs s !! id = Some e /\ ~ older_than_30_days env e.
Proof.
  intros Hk s'.
  assert (clean env s') as Hclean.
  { apply clean_iff_no_old_logs. unfold s'. rewrite sweeps_old_logs. lia. }
  split; [done|]. split; [apply sweeps_rateLimits|].
  intros id e. destruct (sweeps_lookup env k s id e) as [H1 H2].
  split.
  - intros He. split; [by apply H1|]. by apply (Hclean id).
  - intros [He Hnew]. by apply H2.
Qed.

Lemma sweeps_reach_clean_witness :
  let env := sample_env (31 * msPerDay) (Text (js "Hi")) in
  let s' := Nat.iter 1 (sweep env) logged_store in
  clean env s'
  /\ rateLimits s' = rateLimits logged_store
  /\ forall id e,
       usage_logs s' !! id = Some e
       <-> usage_logs logged_store !! id = Some e
           /\ ~ older_than_30_days env e.
Proof.
  intros env s'.
  apply (sweeps_reach_clean env logged_store 1).
  vm_compute. lia.
Defined.

(** ** The order in which the sweep deletes *)

Lemma id_leb_cons (x y : N) (a b : jsstring) :
  id_leb (x :: a) (y :: b) = true
  <-> (x < y)%N \/ (x = y /\ id_leb a b = true).
Proof.
  simpl. rewrite orb_true_iff, andb_true_iff, N.ltb_lt, N.eqb_eq. done.
Qed.

Lemma id_leb_trans (a b c : jsstring) :
  id_leb a b = true -> id_leb b c = true -> id_leb a c = true.
Proof.
  revert b c. induction a as [|x a IH]; intros [|y b] [|z c]; try done.
  rewrite !id_leb_cons. intros [H1 | [-> H1]] [H2 | [-> H2]].
  - left. lia.
  - by left.
  - by left.
  - right. eauto.
Qed.

#[local] Existing Instance log_le_total.

#[local] Instance log_le_trans : Transitive log_le.
Proof.
  intros [i d] [j e] [k f]. unfold log_le, log_leb. simpl.
  rewrite !Is_true_true, !orb_true_iff, !andb_true_iff, !Z.ltb_lt, !Z.eqb_eq.
  intros [H1 | [H1 H1']] [H2 | [H2 H2']].
  - left. lia.
  - left. lia.
  - left. lia.
  - right. split; [lia|]. by eapply id_leb_trans.
Qed.

Lemma log_le_timestamp (a b : jsstring * UsageLog.t) :
  log_le a b -> UsageLog.timestamp a.2 <= UsageLog.timestamp b.2.
Proof.
  unfold log_le, log_leb.
  rewrite Is_true_true, orb_true_iff, andb_true_iff, Z.ltb_lt, Z.eqb_eq. lia.
Qed.

(** X20.  [cleanupLogs] deletes the oldest entries first: an entry older
    than thirty days that a run leaves in place is not older than any
    entry that the run deletes. *)
Theorem sweep_deletes_oldest_first (env : Env) (s : Firestore)
    (id id' : jsstring) (e e' : UsageLog.t) :
  usage_logs s !! id' = Some e' ->
  usage_logs (sweep env s) !! id' = None ->
  usage_logs (sweep env s) !! id = Some e ->
  older_than_30_days env e ->
  UsageLog.timestamp e' <= UsageLog.timestamp e.
Proof.
  rewrite sweep_eq. simpl. unfold where_timestamp_lt.
  set (sorted := merge_sort log_le
         (filter (fun d : jsstring * UsageLog.t =>
                    UsageLog.timestamp d.2 < thirtyDaysAgo env)
                 (map_to_list (usage_logs s)))).
  intros He' Hgone [Hkept He]%lookup_foldr_delete_Some Hold.
  assert (StronglySorted log_le (take 500 sorted ++ drop 500 sorted)) as Hs.
  { rewrite take_drop. apply StronglySorted_merge_sort; apply _. }
  apply (log_le_timestamp (id', e') (id, e)).
  apply (StronglySorted_app_1_elem_of _ _ _ _ _ Hs).
  - destruct (decide (id' ∈ (take 500 sorted).*1)) as [Hin|Hout].
    + apply list_elem_of_fmap in Hin as ([i f] & -> & Hin).
      assert ((i, f) ∈ sorted) as Hf by (by apply (subseteq_take 500)).
      unfold sorted in Hf. rewrite merge_sort_Permutation in Hf.
      apply list_elem_of_filter in Hf as [_ Hf%elem_of_map_to_list].
      simpl in He'. assert (f = e') as -> by congruence. done.
    + rewrite lookup_foldr_delete_not_elem_of in Hgone by done. congruence.
  - assert ((id, e) ∈ sorted) as Hin.
    { unfold sorted. rewrite merge_sort_Permutation.
      apply list_elem_of_filter. split; [exact Hold|].
      by apply elem_of_map_to_list. }
    rewrite <- (take_drop 500 sorted) in Hin.
    apply elem_of_app in Hin as [Hin|Hin]; [|done].
    destruct Hkept. apply list_elem_of_fmap. by exists (id, e).
Qed.

Lemma sweep_deletes_oldest_first_witness :
  let env := sample_env (31 * msPerDay) (Text (js "Hi")) in
  let s' := sweep env crowded_store in
  usage_logs s' !! [0%N] = None
  /\ (UsageLog.timestamp <$> usage_logs s' !! [500%N]) = Some 500
  /\ 0 <= 500.
Proof.
  intros env s'.
  assert (usage_logs s' !! [0%N] = None) as Hgone by (vm_compute; reflexivity).
  destruct (usage_logs s' !! [500%N]) as [e|] eqn:He;
    [|vm_compute in He; discriminate].
  assert (UsageLog.timestamp e = 500) as Ht.
  { vm_compute in He. by injection He as <-. }
  split; [done|]. split; [by rewrite <- Ht|].
  change 0 with (UsageLog.timestamp
    {| UsageLog.userId := uid alice;
       UsageLog.timestamp := 0;
       UsageLog.promptLength := 5;
       UsageLog.responseLength := 2;
       UsageLog.model := js "gemini-pro" |}).
  rewrite <- Ht.
  apply (sweep_deletes_oldest_first env crowded_store [500%N] [0%N]).
  - vm_compute. reflexivity.
  - exact Hgone.
  - exact He.
  - unfold older_than_30_days. rewrite Ht. vm_compute. reflexivity.
Defined.

(** ** The checks at the door *)

(** X21.  The check of the prompt (and of the API key), the same in every
    handler, accepts a value exactly when it is a string with at least one
    code unit that is not white space; what it hands on is the string as it
    was received, not the trimmed one. *)
Theorem prompt_check_accepts_non_white_space (v : JsValue) (p : jsstring) :
  non_blank_string v = Some p
  <-> v = JsString p
      /\ Exists (fun c => JsString.is_white_space c = false) p.
Proof.
  split.
  - intros H. destruct (non_blank_string_Some _ _ H) as [-> Hnb].
    split; [done|]. rewrite trim_nil_iff in Hnb.
    apply not_Forall_Exists in Hnb; [|apply _].
    eapply Exists_impl; [exact Hnb|].
    intros c Hc. simpl in Hc. by destruct (JsString.is_white_space c).
  - intros [-> Hex]. apply non_blank_string_intro. rewrite trim_nil_iff.
    intros Hall. apply Exists_exists in Hex as (c & Hc & Hf).
    rewrite Forall_forall in Hall. rewrite (Hall c Hc) in Hf. discriminate.
Qed.

(** X22.  A caller who is not signed in is refused with [unauthenticated]
    before anything else is looked at: whatever the payload and the store
    are, no operation is performed and the store is left as it was. *)
Theorem unauthenticated_caller_is_refused_first (env : Env) (data : Payload)
    (context : CallableContext) (s : Firestore) :
  auth context = None ->
  run (generateWithGemini env data context) s
  = (Thrown unauthenticated_error, {| store := s; trace := [] |}).
Proof.
  intros Hauth.
  destruct (callable_run env data context s); congruence.
Qed.

Lemma unauthenticated_caller_is_refused_first_witness :
  run (generateWithGemini (sample_env 1000 (Text (js "Hi")))
         (payload JsUndefined) {| auth := None |}) stale_store
  = (Thrown unauthenticated_error, {| store := stale_store; trace := [] |}).
Proof.
  by apply unauthenticated_caller_is_refused_first.
Defined.

(** ** Loading the Express module *)

Lemma evaluate_state (reads : list string) (m : ModuleState) :
  (evaluate reads m).2 = m.
Proof.
  induction reads as [|x reads IH]; simpl; [done|].
  by destruct (is_bound x m).
Qed.

Lemma evaluate_unbound (reads : list string) (m : ModuleState) :
  In "z"%string reads ->
  is_bound "z" m = false ->
  exists e, (evaluate reads m).1 = Thrown e.
Proof.
  intros Hin Hz. induction reads as [|x reads IH]; simpl; [done|].
  destruct (is_bound x m) eqn:Hx; [|by eexists].
  destruct Hin as [-> | Hin]; [congruence|by apply IH].
Qed.

Lemma const_keeps (x : string) (reads : list string) (m : ModuleState) :
  x <> "z"%string ->
  not_yet_listening m ->
  not_yet_listening (const_ x reads m).2.
Proof.
  intros Hx [Hz Hl]. unfold const_.
  pose proof (evaluate_state reads m) as Hm.
  destruct (evaluate reads m) as [[[]|e] m']; simpl in Hm; subst m'; simpl;
    [|done].
  split; [|done]. unfold is_bound in *. cbn [bound].
  rewrite existsb_app, Hz. cbn [existsb orb].
  rewrite orb_false_r. apply String.eqb_neq. congruence.
Qed.

Lemma call_keeps (reads : list string) (effect : ServerApp -> ServerApp)
    (m : ModuleState) :
  (forall a, listening (effect a) = listening a) ->
  not_yet_listening m ->
  not_yet_listening (call_ reads effect m).2.
Proof.
  intros Heffect [Hz Hl]. unfold call_.
  pose proof (evaluate_state reads m) as Hm.
  destruct (evaluate reads m) as [[[]|e] m']; simpl in Hm; subst m'; simpl;
    [|done].
  split; [done|]. cbn [application]. by rewrite Heffect.
Qed.

Lemma const_unbound (x : string) (reads : list string) (m : ModuleState) :
  In "z"%string reads ->
  not_yet_listening m ->
  (exists e, (const_ x reads m).1 = Thrown e)
  /\ not_yet_listening (const_ x reads m).2.
Proof.
  intros Hin [Hz Hl]. unfold const_.
  pose proof (evaluate_state reads m) as Hm.
  destruct (evaluate_unbound reads m Hin Hz) as [e He].
  destruct (evaluate reads m) as [c m']. simpl in *. subst c m'.
  split; [by eexists|done].
Qed.

(** Statements that do not make the application listen, followed by one
    that throws: the module throws, and the application does not listen. *)
Lemma statements_stop (prior : list (Loading unit)) (st : Loading unit)
    (rest : list (Loading unit)) (m : ModuleState) :
  Forall (fun st' => forall m', not_yet_listening m' ->
                                not_yet_listening (st' m').2) prior ->
  (forall m', not_yet_listening m' ->
              (exists e, (st m').1 = Thrown e)
              /\ not_yet_listening (st m').2) ->
  not_yet_listening m ->
  (exists e, (statements (prior ++ st :: rest) m).1 = Thrown e)
  /\ not_yet_listening (statements (prior ++ st :: rest) m).2.
Proof.
  intros Hbefore Hst. revert m.
  induction Hbefore as [|st' prior Hst' _ IH]; intros m Hm; simpl.
  - destruct (Hst m Hm) as [[e He] Hm'].
    destruct (st m) as [c m']. simpl in *. subst c.
    split; [by eexists|done].
  - specialize (Hst' m Hm).
    destruct (st' m) as [[[]|e] m']; simpl in *.
    + by apply IH.
    + split; [by eexists|done].
Qed.

(** X24.  Whatever is bound when the Express module starts to load, as long
    as [z] is not: the module throws before it reaches [app.listen], so
    that the application never listens and a client gets no answer. *)
Theorem server_module_never_listens (m : ModuleState) :
  is_bound "z" m = false ->
  listening (application m) = false ->
  (exists e, (server_module m).1 = Thrown e)
  /\ listening (application (server_module m).2) = false
  /\ forall (A : Type) (answer : A), client_gets (server_module m) answer = None.
Proof.
  intros Hz Hl.
  assert (not_yet_listening m) as Hm by done.
  unfold server_module.
  match goal with
  | |- context [statements ?l] =>
      change l with (take 17 l ++ const_ "geminiFlow" ["ai"; "z"]%string
                       :: drop 18 l)
  end.
  match goal with
  | |- context [statements (?b ++ ?st :: ?a)] =>
      destruct (statements_stop b st a m) as [[e He] [_ Hlisten]]
  end.
  - simpl.
    repeat (apply Forall_cons_2;
            [intros m' Hm';
             first [ by apply const_keeps | by apply call_keeps ]|]).
    apply Forall_nil_2.
  - intros m' Hm'. apply const_unbound; [|done]. simpl. tauto.
  - done.
  - split; [by eexists|]. split; [done|].
    intros A answer. unfold client_gets. by rewrite He.
Qed.

Lemma server_module_never_listens_witness :
  (exists e, (server_module node_scope).1 = Thrown e)
  /\ listening (application (server_module node_scope).2) = false
  /\ forall (A : Type) (answer : A),
       client_gets (server_module node_scope) answer = None.
Proof.
  apply (server_module_never_listens node_scope); reflexivity.
Defined.
